(** * Laba3_zvit.py: the report generator of laboratory work 3

    A shallow embedding of the orchestrator script [Laba3_zvit.py]:
    discovery of the exercise files, execution of each exercise in a child
    process, sanitizing of the captured output and assembly of the
    document.

    Python [str] values are sequences of Unicode code points; they are
    modelled as [list N].  The built-in string methods the script calls
    ([str.splitlines], [str.strip], [str.split], [str.join], [in]) follow
    CPython's behaviour on code points.  The operating system (directory
    listing, child processes, files, clock) is a record of oracles,
    [World].  A call that may raise returns a [result]; the document is
    the list of the blocks appended to it, and a call of python-docx
    raises when lxml refuses the text it is given.  The formatting of
    the document (fonts, indents, alignment) is not modelled, and the
    messages printed on the console are taken to be written. *)

From Stdlib Require Import NArith ZArith Bool List Lia Ascii String.
From Stdlib Require Import Sorting.Sorted Sorting.Permutation.
From Stdlib Require Import Numbers.DecimalString.
From stdpp Require Import base option list gmap.

Local Open Scope N_scope.
Local Open Scope list_scope.

(** ** Python strings *)

Module PyStr.

Abbreviation char := N (only parsing).
Abbreviation str := (list N) (only parsing).

Definition LF : N := 10.
Definition CR : N := 13.

(** *** String literals

    A literal of the script is written [u "..."]: the UTF-8 bytes of the
    Rocq string are decoded to code points, and the two-character escape
    backslash-n of a Python literal stands for a line feed. *)

Fixpoint utf8_go (need : nat) (acc : N) (bs : list N) : list N :=
  match bs with
  | [] => []
  | b :: bs' =>
      match need with
      | O =>
          if b <? 128 then b :: utf8_go 0 0 bs'
          else if b <? 224 then utf8_go 1 (N.land b 31) bs'
          else if b <? 240 then utf8_go 2 (N.land b 15) bs'
          else utf8_go 3 (N.land b 7) bs'
      | S O => (acc * 64 + N.land b 63) :: utf8_go 0 0 bs'
      | S n => utf8_go n (acc * 64 + N.land b 63) bs'
      end
  end.

Fixpoint unescape (cs : list N) : list N :=
  match cs with
  | 92 :: 110 :: cs' => LF :: unescape cs'
  | c :: cs' => c :: unescape cs'
  | [] => []
  end.

Definition u (s : string) : list N :=
  unescape (utf8_go 0 0 (List.map (fun b => N_of_ascii (ascii_of_byte b))
                                  (list_byte_of_string s))).

(** *** Character classes

    [isspace] is [Py_UNICODE_ISSPACE] and [is_linebreak] is
    [Py_UNICODE_ISLINEBREAK]: the code points [str.strip] removes and
    the ones [str.splitlines] breaks at. *)

Definition is_linebreak (c : N) : bool :=
  (c =? 10) || (c =? 11) || (c =? 12) || (c =? 13)
  || (c =? 28) || (c =? 29) || (c =? 30)
  || (c =? 133) || (c =? 8232) || (c =? 8233).

Definition isspace (c : N) : bool :=
  ((9 <=? c) && (c <=? 13)) || ((28 <=? c) && (c <=? 31))
  || (c =? 32) || (c =? 133) || (c =? 160) || (c =? 5760)
  || ((8192 <=? c) && (c <=? 8202))
  || (c =? 8232) || (c =? 8233) || (c =? 8239) || (c =? 8287)
  || (c =? 12288).

(** *** [str.strip], [str.lstrip], [str.rstrip] without argument *)

Fixpoint lstrip (s : list N) : list N :=
  match s with
  | c :: s' => if isspace c then lstrip s' else s
  | [] => []
  end.

Fixpoint rstrip (s : list N) : list N :=
  match s with
  | [] => []
  | c :: s' =>
      match rstrip s' with
      | [] => if isspace c then [] else [c]
      | r => c :: r
      end
  end.

(** CPython's [do_strip] advances the left index over white space, then
    moves the right index back over white space down to the left one. *)
Definition strip (s : list N) : list N := rstrip (lstrip s).

(** *** [sep.join(parts)] *)

Fixpoint join (sep : list N) (parts : list (list N)) : list N :=
  match parts with
  | [] => []
  | [p] => p
  | p :: ps => p ++ sep ++ join sep ps
  end.

(** *** [s.split(sep)] for a single-character separator *)

Fixpoint split_chr (sep : N) (s : list N) : list (list N) :=
  match s with
  | [] => [[]]
  | c :: s' =>
      if c =? sep then [] :: split_chr sep s'
      else match split_chr sep s' with
           | l :: ls => (c :: l) :: ls
           | [] => [[c]]
           end
  end.

(** *** [s.splitlines()]

    A line ends at any line-break character, the pair CR LF counting as
    one break; the breaks are not kept, and there is no empty last line
    after a final break. *)

(** The rest of the text after the break character [c]: a line feed
    that follows a carriage return belongs to the same break. *)
Definition after_break (c : N) (s' : list N) : list N :=
  match s' with
  | c' :: s'' => if (c =? CR) && (c' =? LF) then s'' else s'
  | [] => s'
  end.

Fixpoint splitlines (s : list N) : list (list N) :=
  match s with
  | [] => []
  | c :: s' =>
      if is_linebreak c then [] :: splitlines (after_break c s')
      else match splitlines s' with
           | l :: ls => (c :: l) :: ls
           | [] => [[c]]
           end
  end.

(** *** [tok in s] *)

Fixpoint startswith (p s : list N) : bool :=
  match p, s with
  | [], _ => true
  | a :: p', b :: s' => (a =? b) && startswith p' s'
  | _ :: _, [] => false
  end.

Fixpoint contains (p s : list N) : bool :=
  startswith p s ||
  match s with
  | [] => false
  | _ :: s' => contains p s'
  end.

(** *** [str(n)] for an integer *)

Definition str_of_Z (z : Z) : list N :=
  List.map (fun b => N_of_ascii (ascii_of_byte b))
           (list_byte_of_string (NilZero.string_of_int (Z.to_int z))).

End PyStr.
Import PyStr.

(** ** Exceptions

    The script catches with [except Exception]; the exceptions of the
    model are the ones of that class ([KeyboardInterrupt] and
    [SystemExit], which come from outside the program, are not part of
    it).  [Return]/[Raise] is the outcome of a call that may raise. *)

Inductive exn_class : Type :=
  | TimeoutExpired    (* subprocess.TimeoutExpired *)
  | OSError           (* the child could not be launched, the file not opened *)
  | UnicodeError      (* UnicodeDecodeError, UnicodeEncodeError *)
  | ValueError        (* a text or a level that python-docx refuses *)
  | OtherException.

Record exn : Type := { exn_cls : exn_class; exn_str : list N }.

Inductive result (A : Type) : Type :=
  | Return (a : A)
  | Raise (e : exn).
Arguments Return {A} a.
Arguments Raise {A} e.

#[global] Instance result_ret : MRet result := fun A a => Return a.
#[global] Instance result_bind : MBind result := fun A B f m =>
  match m with
  | Return a => f a
  | Raise e => Raise e
  end.

(** [try: body / except C1: h1 / except C2: h2]: the first clause whose
    class matches handles the exception. *)
Fixpoint try_except {A} (body : result A)
    (clauses : list ((exn_class -> bool) * (exn -> result A))) : result A :=
  match body with
  | Return a => Return a
  | Raise e =>
      match clauses with
      | [] => Raise e
      | (catches, handler) :: rest =>
          if catches (exn_cls e) then handler e
          else try_except (Raise e) rest
      end
  end.

Definition is_TimeoutExpired (c : exn_class) : bool :=
  match c with TimeoutExpired => true | _ => false end.

(** Every class of the model derives from [Exception]. *)
Definition is_Exception (c : exn_class) : bool := true.

(** ** The environment of a run *)

(** A [pathlib.Path] of a directory entry: the directory it is in and
    its name. *)
Record Path : Type := { parent : list N; name : list N }.

#[global] Instance Path_eq_dec : EqDecision Path.
Proof. solve_decision. Defined.

(** [str(path)] *)
Definition path_str (p : Path) : list N := parent p ++ u "/" ++ name p.

(** [subprocess.CompletedProcess] *)
Record CompletedProcess : Type := { returncode : Z; stdout : list N }.

(** What the script asks of the operating system.  [subprocess_run cmd
    input cwd] is [subprocess.run(cmd, capture_output=True, text=True,
    timeout=10, input=input, cwd=cwd, env=env, encoding='utf-8')]: the
    child runs to its exit, or [TimeoutExpired] is raised after ten
    seconds, or the launch raises.  A child is an isolated process: its
    outcome is a function of the command, its input and its directory. *)
Record World : Type := {
  CURRENT_DIR : list N;          (* Path(__file__).parent *)
  sys_executable : list N;       (* sys.executable *)
  listdir : list (list N);       (* the names in CURRENT_DIR *)
  subprocess_run :
    list (list N) -> list N -> list N -> result CompletedProcess;
  open_read : Path -> result (list N);   (* open(p, 'r', 'utf-8').read() *)
  now_dmY : list N;              (* datetime.now().strftime("%d.%m.%Y") *)
  now_Ymd : list N;              (* datetime.now().strftime("%Y%m%d") *)
  doc_save : list N -> result unit       (* doc.save(path) *)
}.

(** [CURRENT_DIR / name] *)
Definition in_dir (w : World) (n : list N) : Path :=
  {| parent := CURRENT_DIR w; name := n |}.

(** ** Configuration tables *)

Record TaskInfo : Type :=
  { title : list N; description : list N; topic : list N }.

Definition TASK_DESCRIPTIONS : gmap (list N) TaskInfo :=
  list_to_map [
    (u "riven1zada4a1.py",
     {| title := u "Завдання 1 (Рівень 1): Підрахунок унікальних символів";
        description := u "Розробка функцій для підрахунку кількості унікальних символів у рядку з використанням словників та NumPy.";
        topic := u "Функції, списки, словники" |});
    (u "riven1zada4a2.py",
     {| title := u "Завдання 2 (Рівень 1): Обернення списку";
        description := u "Написання функцій для обернення списку без вбудованих методів та порівняння продуктивності.";
        topic := u "Функції, списки" |});
    (u "riven1zada4a3.py",
     {| title := u "Завдання 3 (Рівень 1): Пошук максимуму";
        description := u "Розробка функцій для пошуку максимального елементу списку з різними підходами.";
        topic := u "Функції, цикли" |});
    (u "riven1zada4a4.py",
     {| title := u "Завдання 4 (Рівень 1): Сортування списку";
        description := u "Реалізація простого алгоритму сортування (bubble sort) з нуля.";
        topic := u "Функції, алгоритми" |});
    (u "riven1zada4a5.py",
     {| title := u "Завдання 5 (Рівень 1): Фільтрація даних";
        description := u "Написання функцій для фільтрації списку за заданим критерієм.";
        topic := u "Функції, лямбда-вирази" |});
    (u "riven2zada4a1.py",
     {| title := u "Завдання 1 (Рівень 2): Робота з зовнішніми модулями";
        description := u "Використання модулів random, math та string для генерації та обробки даних.";
        topic := u "Модулі, вбудовані функції" |});
    (u "riven2zada4a2.py",
     {| title := u "Завдання 2 (Рівень 2): Аналіз текстового файлу";
        description := u "Читання файлу, підрахунок слів, символів та статистичний аналіз тексту.";
        topic := u "Файли, обробка тексту" |});
    (u "riven2zada4a3.py",
     {| title := u "Завдання 3 (Рівень 2): Запис результатів у файл";
        description := u "Запис результатів обробки даних у текстовий файл з форматуванням.";
        topic := u "Файли, форматування" |});
    (u "riven2zada4a4.py",
     {| title := u "Завдання 4 (Рівень 2): CSV обробка";
        description := u "Робота з CSV файлами: читання, обробка та запис структурованих даних.";
        topic := u "Файли, модуль csv" |});
    (u "riven2zada4a5.py",
     {| title := u "Завдання 5 (Рівень 2): JSON та конфігурація";
        description := u "Робота з JSON форматом для збереження та завантаження конфігурацій.";
        topic := u "Файли, JSON, словники" |});
    (u "riven3zada4a1.py",
     {| title := u "Завдання 1 (Рівень 3): Рекурсивні функції";
        description := u "Розробка рекурсивних функцій та розуміння принципу рекурсії.";
        topic := u "Рекурсія, стек вызовів" |});
    (u "riven3zada4a2.py",
     {| title := u "Завдання 2 (Рівень 3): Складні структури даних";
        description := u "Робота з вложеними словниками та списками для представлення складних структур.";
        topic := u "Структури даних, модулі" |});
    (u "riven3zada4a3.py",
     {| title := u "Завдання 3 (Рівень 3): Обробка помилок";
        description := u "Розробка надійних функцій з обробкою винятків та валідацією даних.";
        topic := u "Винятки, обробка помилок" |});
    (u "riven3zada4a4.py",
     {| title := u "Завдання 4 (Рівень 3): Великі файли";
        description := u "Ефективна робота з великими файлами з використанням буферизації та потоків.";
        topic := u "Файли, оптимізація" |});
    (u "riven3zada4a5.py",
     {| title := u "Завдання 5 (Рівень 3): Інтеграція всіх концепцій";
        description := u "Комплексний проект, що поєднує функції, модулі, файли та обробку помилок.";
        topic := u "Проектування, архітектура" |})
  ].

Definition TEST_INPUTS (w : World) : gmap (list N) (list N) :=
  list_to_map [
    (u "riven1zada4a1.py", u "тестовий текст для аналізу\n");
    (u "riven1zada4a2.py", u "1 2 3\nвихід\n");
    (u "riven1zada4a3.py", u "3\n");
    (u "riven1zada4a4.py", u "3\n");
    (u "riven1zada4a5.py", u "2\n3\n");
    (u "riven2zada4a1.py", u "4\n");
    (u "riven2zada4a2.py", u "4\n");
    (u "riven2zada4a3.py", u "3\n");
    (u "riven2zada4a4.py", u "4\n");
    (u "riven2zada4a5.py", u "2\n-3\n");
    (u "riven3zada4a4.py",
     path_str (in_dir w (u "riven3_test_endings.txt")) ++ u "\n!\n");
    (u "riven3zada4a5.py",
     path_str (in_dir w (u "riven3_test_invert.txt")) ++ u "\n!\n")
  ].

Definition TEST_ARGS (w : World) : gmap (list N) (list (list N)) :=
  list_to_map [
    (u "riven3zada4a1.py", [path_str (in_dir w (u "riven3_test_count.txt"))]);
    (u "riven3zada4a2.py",
     [path_str (in_dir w (u "riven3_schedule_test.txt"))])
  ].

(** ** Discovery *)

(** [a < b] on [str]: lexicographic on code points. *)
Fixpoint str_ltb (a b : list N) : bool :=
  match a, b with
  | _, [] => false
  | [], _ :: _ => true
  | x :: a', y :: b' =>
      if x <? y then true else if y <? x then false else str_ltb a' b'
  end.

Fixpoint endswith (s suffix : list N) : bool :=
  (if decide (s = suffix) then true else false) ||
  match s with
  | [] => false
  | _ :: s' => endswith s' suffix
  end.

(** [CURRENT_DIR.glob("*.py")]: the entries of the directory whose name
    ends in [.py], in the order the system lists them. *)
Definition glob_py (w : World) : list Path :=
  List.map (in_dir w)
    (List.filter (fun n => endswith n (u ".py")) (listdir w)).

(** [sorted(xs, key=key)]: a stable sort that compares keys with [<]. *)
Section Sorted.
Context {A : Type} (key : A -> list N).

Fixpoint insert_sorted (x : A) (l : list A) : list A :=
  match l with
  | [] => [x]
  | y :: l' =>
      if str_ltb (key y) (key x) then y :: insert_sorted x l'
      else x :: l
  end.

Fixpoint sorted (l : list A) : list A :=
  match l with
  | [] => []
  | x :: l' => insert_sorted x (sorted l')
  end.
End Sorted.

Fixpoint get_python_files_loop (files globbed : list Path) : list Path :=
  match globbed with
  | [] => files
  | file :: rest =>
      if decide (name file <> u "Laba3_zvit.py")
      then get_python_files_loop (files ++ [file]) rest
      else get_python_files_loop files rest
  end.

Definition get_python_files (w : World) : list Path :=
  sorted name (get_python_files_loop [] (glob_py w)).

(** ** The sanitizer *)

Definition markers : list (list N) :=
  [u "❌"; u "✗"; u "Помилка"; u "Error"; u "Traceback"].

(** [any(token in line for token in (...))] *)
Definition has_marker (line : list N) : bool :=
  existsb (fun token => contains token line) markers.

Fixpoint sanitize_loop (cleaned_lines lines : list (list N))
    : list (list N) :=
  match lines with
  | [] => cleaned_lines
  | line :: rest =>
      if has_marker line then sanitize_loop cleaned_lines rest
      else sanitize_loop (cleaned_lines ++ [line]) rest
  end.

Definition sanitize_output (output : list N) : list N :=
  match output with
  | [] => []
  | _ => strip (join (u "\n") (sanitize_loop [] (splitlines output)))
  end.

(** *** The sanitizer as the specification words it

    Split into lines, discard the lines with a marker, rejoin, and trim
    the blank lines at both ends; a line is blank when it has only white
    space. *)

Definition blank (l : list N) : bool := forallb isspace l.

Fixpoint drop_leading_blank (ls : list (list N)) : list (list N) :=
  match ls with
  | l :: ls' => if blank l then drop_leading_blank ls' else ls
  | [] => []
  end.

Fixpoint drop_trailing_blank (ls : list (list N)) : list (list N) :=
  match ls with
  | [] => []
  | l :: ls' =>
      match drop_trailing_blank ls' with
      | [] => if blank l then [] else [l]
      | r => l :: r
      end
  end.

Definition trim_blank_lines (ls : list (list N)) : list (list N) :=
  drop_trailing_blank (drop_leading_blank ls).

Definition kept_lines (t : list N) : list (list N) :=
  List.filter (fun l => negb (has_marker l)) (splitlines t).

Definition sanitize_spec (t : list N) : list N :=
  join (u "\n") (trim_blank_lines (kept_lines t)).

(** What [strip] does to the two ends of a list of lines. *)
Definition lstrip_first (ls : list (list N)) : list (list N) :=
  match ls with
  | l :: ls' => lstrip l :: ls'
  | [] => []
  end.

Fixpoint rstrip_last (ls : list (list N)) : list (list N) :=
  match ls with
  | [] => []
  | [l] => [rstrip l]
  | l :: ls' => l :: rstrip_last ls'
  end.

(** ** The coordinator *)

(** [cmd = [sys.executable, str(script_path)]], extended with [args] when
    there are some. *)
Definition command (w : World) (script_path : Path)
    (args : option (list (list N))) : list (list N) :=
  let cmd := [sys_executable w; path_str script_path] in
  match args with
  | Some (a :: args') => cmd ++ a :: args'
  | _ => cmd
  end.

(** [input_text or ""] *)
Definition or_empty (input_text : option (list N)) : list N :=
  match input_text with
  | Some (c :: t) => c :: t
  | _ => []
  end.

Definition capture_output (w : World) (script_path : Path)
    (input_text : option (list N)) (args : option (list (list N)))
    : result (option (list N)) :=
  try_except
    (let cmd := command w script_path args in
     result ← subprocess_run w cmd (or_empty input_text)
                (parent script_path);
     if (returncode result =? 0)%Z
     then Return (Some (strip (stdout result)))
     else Return None)
    [(is_TimeoutExpired, fun _ => Return None);
     (is_Exception, fun e => Return None)].

Definition no_output : list N := u "(Без виводу)".

(** The loop of [create_report] that runs the exercises and fills
    [task_results]. *)
Fixpoint collect_results (w : World) (py_files : list Path)
    (task_results : gmap (list N) (list N))
    : result (gmap (list N) (list N)) :=
  match py_files with
  | [] => Return task_results
  | task_file :: rest =>
      let input_text := TEST_INPUTS w !! name task_file in
      let args := TEST_ARGS w !! name task_file in
      output ← capture_output w task_file input_text args;
      match output with
      | None =>
          collect_results w rest (<[name task_file := no_output]> task_results)
      | Some output =>
          let cleaned := sanitize_output output in
          collect_results w rest
            (<[name task_file :=
                 match cleaned with [] => no_output | _ => cleaned end]>
               task_results)
      end
  end.

(** ** The document

    python-docx appends blocks to the document; the model keeps the
    blocks and their text (fonts, indents and alignment are not
    modelled).  The text of a paragraph or of a heading goes into a run,
    and the run hands it to lxml, which refuses what an XML document
    cannot hold: the call then raises. *)

Inductive Block : Type :=
  | Heading (text : list N) (level : nat)
  | Paragraph (text : list N)
  | ListBullet (text : list N)      (* add_paragraph(text, style='List Bullet') *)
  | PageBreak.

Abbreviation Document := (list Block) (only parsing).

(** *** The text of a run

    [run.text = text] walks the text: a tab, a line feed or a carriage
    return becomes an element of its own, and the characters between two
    of them become one text node.  lxml encodes the text of a node to
    UTF-8, which fails on a surrogate, and then checks that each
    character is one that XML allows ([xmlIsChar]). *)

Definition is_surrogate (c : N) : bool := (55296 <=? c) && (c <=? 57343).

Definition xml_char (c : N) : bool :=
  if c <? 128 then (c =? 9) || (c =? 10) || (c =? 13) || (32 <=? c)
  else negb (is_surrogate c) && negb (c =? 65534) && negb (c =? 65535).

Definition hex_digit (d : N) : N := if d <? 10 then 48 + d else 87 + d.

Definition hex4 (c : N) : list N :=
  [hex_digit (c / 4096 mod 16); hex_digit (c / 256 mod 16);
   hex_digit (c / 16 mod 16); hex_digit (c mod 16)].

Fixpoint surrogate_run (s : list N) : list N :=
  match s with
  | c :: s' => if is_surrogate c then c :: surrogate_run s' else []
  | [] => []
  end.

(** The position of the first surrogate and the run of surrogates that
    starts there. *)
Fixpoint first_surrogates (pos : nat) (s : list N) : option (nat * list N) :=
  match s with
  | [] => None
  | c :: s' =>
      if is_surrogate c then Some (pos, c :: surrogate_run s')
      else first_surrogates (S pos) s'
  end.

(** [str(e)] of the [UnicodeEncodeError] of [text.encode('utf8')]. *)
Definition UnicodeEncodeError_str (start : nat) (run : list N) : list N :=
  match run with
  | [c] =>
      u "'utf-8' codec can't encode character '" ++ [92; 117] ++ hex4 c
      ++ u "' in position " ++ str_of_Z (Z.of_nat start)
      ++ u ": surrogates not allowed"
  | _ =>
      u "'utf-8' codec can't encode characters in position "
      ++ str_of_Z (Z.of_nat start) ++ u "-"
      ++ str_of_Z (Z.of_nat (start + length run - 1))
      ++ u ": surrogates not allowed"
  end.

(** The [ValueError] of lxml for a text with a character that XML does
    not allow. *)
Definition not_xml_compatible : exn :=
  {| exn_cls := ValueError;
     exn_str := u "All strings must be XML compatible: Unicode or ASCII, no NULL bytes or control characters" |}.

(** lxml's [_utf8] on the text of one node. *)
Definition lxml_utf8 (s : list N) : result unit :=
  match first_surrogates 0 s with
  | Some (start, run) =>
      Raise {| exn_cls := UnicodeError;
               exn_str := UnicodeEncodeError_str start run |}
  | None => if forallb xml_char s then Return () else Raise not_xml_compatible
  end.

Definition is_run_break (c : N) : bool := (c =? 9) || (c =? 10) || (c =? 13).

(** The buffered characters become a text node, if there are any. *)
Definition flush_run (bfr : list N) : result unit :=
  match bfr with
  | [] => Return ()
  | _ => lxml_utf8 bfr
  end.

Fixpoint append_to_run (bfr text : list N) : result unit :=
  match text with
  | [] => flush_run bfr
  | c :: rest =>
      if is_run_break c then _ ← flush_run bfr; append_to_run [] rest
      else append_to_run (bfr ++ [c]) rest
  end.

(** [run.text = text] *)
Definition set_run_text (text : list N) : result unit :=
  append_to_run [] text.

(** *** The calls on the document *)

Definition add_heading (doc : list Block) (text : list N) (level : nat)
    : result (list Block) :=
  if (9 <? level)%nat
  then Raise {| exn_cls := ValueError;
                exn_str := u "level must be in range 0-9, got "
                           ++ str_of_Z (Z.of_nat level) |}
  else _ ← set_run_text text; Return (doc ++ [Heading text level]).

Definition add_paragraph (doc : list Block) (text : list N)
    : result (list Block) :=
  _ ← set_run_text text; Return (doc ++ [Paragraph text]).

Definition add_list_bullet (doc : list Block) (text : list N)
    : result (list Block) :=
  _ ← set_run_text text; Return (doc ++ [ListBullet text]).

Definition add_page_break (doc : list Block) : list Block :=
  doc ++ [PageBreak].

Definition read_file_content (w : World) (file_path : Path)
    : result (list N) :=
  try_except (open_read w file_path)
    [(is_Exception,
      fun e => Return (u "Помилка читання файлу: " ++ exn_str e))].

(** [lines[:stop]] *)
Definition slice_to {A} (l : list A) (stop : Z) : list A :=
  if (stop <? 0)%Z then firstn (Z.to_nat (Z.of_nat (length l) + stop)) l
  else firstn (Z.to_nat stop) l.

Fixpoint add_code_lines (doc : list Block) (lines : list (list N))
    : result (list Block) :=
  match lines with
  | [] => Return doc
  | line :: rest =>
      doc ← add_paragraph doc (match strip line with [] => [] | _ => line end);
      add_code_lines doc rest
  end.

Definition add_formatted_code (doc : list Block) (code_text : list N)
    (max_lines : Z) : result (list Block) :=
  let lines := split_chr LF code_text in
  doc ← add_code_lines doc (slice_to lines max_lines);
  if (Z.of_nat (length lines) >? max_lines)%Z
  then add_paragraph doc
         (u "... (залишилось "
          ++ str_of_Z (Z.of_nat (length lines) - max_lines)
          ++ u " рядків)")
  else Return doc.

Definition conclusions : gmap (list N) (list N) :=
  list_to_map [
    (u "riven1zada4a1.py",
     u "Опановано роботу з функціями для підрахунку унікальних елементів.");
    (u "riven1zada4a2.py",
     u "Закріплено навички написання функцій для маніпуляції зі списками.");
    (u "riven1zada4a3.py",
     u "Відпрацьовано пошук екстремумів у списках за допомогою функцій.");
    (u "riven1zada4a4.py",
     u "Реалізовано алгоритм сортування, що демонструє розуміння базових принципів.");
    (u "riven1zada4a5.py",
     u "Вивчено фільтрацію даних за критеріями з використанням функцій.");
    (u "riven2zada4a1.py",
     u "Опановано імпорт та використання зовнішніх модулів Python.");
    (u "riven2zada4a2.py",
     u "Закріплено навички читання та аналізу текстових файлів.");
    (u "riven2zada4a3.py",
     u "Вивчено запис результатів у файли з форматуванням.");
    (u "riven2zada4a4.py",
     u "Опановано роботу з CSV форматом для структурованих даних.");
    (u "riven2zada4a5.py",
     u "Закріплено використання JSON для конфігурацій та збереження даних.");
    (u "riven3zada4a1.py",
     u "Глибоко вивчено принципи рекурсії та їх практичне застосування.");
    (u "riven3zada4a2.py",
     u "Опановано роботу з вложеними структурами даних.");
    (u "riven3zada4a3.py",
     u "Закріплено надійну розробку з обробкою винятків.");
    (u "riven3zada4a4.py",
     u "Вивчено оптимізацію при роботі з великими файлами.");
    (u "riven3zada4a5.py",
     u "Успішно зібрано всі концепції курсу в єдиний проект.")
  ].

Definition get_task_conclusions (task_file : list N) : list N :=
  default (u "Завдання виконано успішно.") (conclusions !! task_file).

Definition theory_text : list N :=
  u "Лабораторна робота присвячена розробці програм з використанням ключових концепцій мови Python:

1.1 Функції у Python
Функція - це блок коду, який виконує конкретне завдання. Функції дозволяють розділити код на переробні та впорядковані частини. Основні переваги: переиспользування кода, модульність, легкість тестування.

1.2 Рекурсія
Рекурсія - техніка програмування, при якій функція викликає саму себе. Приклади: факторіал, обхід дерева, пошук у графі.

1.3 Зовнішні модулі
Модулі - файли Python, що містять функції, класи та змінні. Основні модулі: random, math, csv, json, string.

1.4 Робота з файлами
Файли дозволяють зберігати дані на диску. Методи: open(), read(), write(), close(), with statement.".

Definition general_conclusion : list N :=
  u "У ході виконання лабораторної роботи №3 було опановано ключові концепції розробки програм на Python:

Основні досягнення:
• Глибоке розуміння функцій як основної одиниці кода
• Практичні навички роботи з рекурсією
• Вміння імпортувати та використовувати зовнішні модулі
• Вміння читати та писати дані у файли різних форматів
• Розуміння важливості обробки помилок та валідації даних".

Definition q1_answer : list N :=
  u "Функція - це назване об'єднання операторів, які визначаються один раз і можуть викликатися багато разів. Синтаксис:
    def назва_функції(параметри):
        тіло функції
        return результат

Основні компоненти: Ім'я, параметри, тіло, повертальне значення.

Рекурсія - техніка, коли функція викликає саму себе. Необхідні базовий випадок і рекурсивний випадок.

Приклад:
    def factorial(n):
        if n <= 1:
            return 1
        return n * factorial(n - 1)

Переваги: природне представлення, елегантність. Недоліки: повільніше, обмеження глибини.".

Definition q2_answer : list N :=
  u "Модуль - файл Python з функціями, класами та змінними.

Способи імпорту:
• import модуль
• from модуль import функція
• import модуль as ім'я
• from модуль import *

Основні модулі: math, random, string, os, sys, datetime, csv, json.".

Definition q3_answer : list N :=
  u "Файли - механізм збереження даних на диску.

Режими: 'r' (читання), 'w' (запис), 'a' (додавання).

Методи: read(), readline(), readlines(), write(), writelines(), seek(), tell(), close().

Рекомендований спосіб - контекстний менеджер:
    with open('file.txt', 'r') as f:
        content = f.read()".

(** The title page. *)
Definition title_page (w : World) (doc : list Block) : result (list Block) :=
  doc ← add_heading doc (u "ЗВІТ") 0;
  doc ← add_paragraph doc (u "з лабораторної роботи №3");
  doc ← add_paragraph doc
          (u "Тема: Функції, зовнішні модулі та файли у Python");
  doc ← add_paragraph doc [];
  doc ← add_paragraph doc
          (u "Дисципліна: Машинне навчання, обробка великих масивів даних");
  doc ← add_paragraph doc [];
  doc ← add_paragraph doc [];
  doc ← add_paragraph doc
          (u "Виконав: аспірант\nНапрямок: 051 Економіка\nДата: " ++ now_dmY w);
  Return (add_page_break doc).

(** The table of contents: [for i, file_path in enumerate(py_files, 1)]. *)
Fixpoint toc_loop (i : nat) (py_files : list Path) (doc : list Block)
    : result (list Block) :=
  match py_files with
  | [] => Return doc
  | file_path :: rest =>
      let filename := name file_path in
      doc ← match TASK_DESCRIPTIONS !! filename with
            | Some task_info =>
                add_list_bullet doc
                  (str_of_Z (Z.of_nat i) ++ u ". " ++ title task_info)
            | None => Return doc
            end;
      toc_loop (S i) rest doc
  end.

(** [for line in lines: doc.add_paragraph(line)] *)
Fixpoint add_result_lines (doc : list Block) (lines : list (list N))
    : result (list Block) :=
  match lines with
  | [] => Return doc
  | line :: rest => doc ← add_paragraph doc line; add_result_lines doc rest
  end.

(** The rendering of the recorded result of one exercise. *)
Definition add_result (doc : list Block) (output : option (list N))
    : result (list Block) :=
  match output with
  | None =>
      add_paragraph doc
        (u "⊘ Скрипт аналізується як код без автоматичного виконання")
  | Some output =>
      let lines :=
        List.filter (fun ln => match strip ln with [] => false | _ => true end)
                    (split_chr LF output) in
      add_result_lines doc lines
  end.

(** The body of [for task_num, file_path in enumerate(py_files, 1)]. *)
Definition task_section (w : World) (task_results : gmap (list N) (list N))
    (n_files : nat) (task_num : nat) (file_path : Path) (doc : list Block)
    : result (list Block) :=
  let filename := name file_path in
  '(doc, task_description, task_topic) ←
    match TASK_DESCRIPTIONS !! filename with
    | Some task_info =>
        doc ← add_heading doc
                (str_of_Z (Z.of_nat task_num) ++ u ". " ++ title task_info) 1;
        Return (doc, description task_info, topic task_info)
    | None =>
        doc ← add_heading doc
                (str_of_Z (Z.of_nat task_num) ++ u ". " ++ filename) 1;
        Return (doc, u "Виконання завдання", u "Python")
    end;
  doc ← add_heading doc (u "1.1 Короткий огляд") 2;
  let overview := task_description ++ u "\nТема: " ++ task_topic in
  doc ← add_paragraph doc overview;
  doc ← add_paragraph doc [];
  doc ← add_heading doc (u "1.2 Вихідний код:") 2;
  code_content ← read_file_content w file_path;
  doc ← add_formatted_code doc code_content 80;
  doc ← add_paragraph doc [];
  doc ← add_heading doc (u "1.3 Результат виконання:") 2;
  let output := task_results !! filename in
  doc ← add_result doc output;
  doc ← add_paragraph doc [];
  doc ← add_heading doc (u "1.4 Висновки:") 2;
  let conclusions := get_task_conclusions filename in
  doc ← add_paragraph doc conclusions;
  Return (if task_num <? n_files then add_page_break doc else doc)%nat.

Fixpoint sections_loop (w : World) (task_results : gmap (list N) (list N))
    (n_files : nat) (task_num : nat) (py_files : list Path)
    (doc : list Block) : result (list Block) :=
  match py_files with
  | [] => Return doc
  | file_path :: rest =>
      doc ← task_section w task_results n_files task_num file_path doc;
      sections_loop w task_results n_files (S task_num) rest doc
  end.

(** The closing part: conclusions and the answers to the questions. *)
Definition closing_part (doc : list Block) : result (list Block) :=
  let doc := add_page_break doc in
  doc ← add_heading doc (u "3. ВИСНОВКИ") 1;
  doc ← add_paragraph doc general_conclusion;
  doc ← add_heading doc (u "4. ВІДПОВІДІ НА КОНТРОЛЬНІ ЗАПИТАННЯ") 1;
  doc ← add_heading doc (u "4.1 Опис функцій у Python. Рекурсія.") 2;
  doc ← add_paragraph doc q1_answer;
  doc ← add_heading doc (u "4.2 Поняття зовнішніх модулів та їх методів.") 2;
  doc ← add_paragraph doc q2_answer;
  doc ← add_heading doc (u "4.3 Файли та методи роботи із ними.") 2;
  add_paragraph doc q3_answer.

(** The document [create_report] builds, from the results of the runs. *)
Definition assemble (w : World) (py_files : list Path)
    (task_results : gmap (list N) (list N)) : result (list Block) :=
  doc ← title_page w [];
  doc ← add_heading doc (u "ЗМІСТ") 1;
  doc ← toc_loop 1 py_files doc;
  let doc := add_page_break doc in
  doc ← add_heading doc (u "1. ТЕОРЕТИЧНІ ВІДОМОСТІ") 1;
  doc ← add_paragraph doc theory_text;
  let doc := add_page_break doc in
  doc ← add_heading doc (u "2. РЕЗУЛЬТАТИ ВИКОНАННЯ ЗАВДАНЬ") 1;
  doc ← sections_loop w task_results (length py_files) 1 py_files doc;
  closing_part doc.

(** [create_report]: the path of the saved file and the document. *)
Definition create_report (w : World) : result (Path * list Block) :=
  let py_files := get_python_files w in
  task_results ← collect_results w py_files ∅;
  doc ← assemble w py_files task_results;
  let output_path :=
    in_dir w (u "Звіт_Лабораторна_3_" ++ now_Ymd w ++ u ".docx") in
  _ ← doc_save w (path_str output_path);
  Return (output_path, doc).

(** ** Notions used in the statements *)

(** A property of lines that passes to the infixes of a line (and so to
    what [strip] leaves of it). *)
Definition hereditary (P : list N -> Prop) : Prop :=
  forall a s b, P (a ++ s ++ b) -> P s.

(** A text without line-break characters. *)
Definition nobreak (l : list N) : bool :=
  forallb (fun c => negb (is_linebreak c)) l.

(** [P] holds of the last line, if there is one. *)
Fixpoint last_sat (P : list N -> Prop) (ls : list (list N)) : Prop :=
  match ls with
  | [] => True
  | [l] => P l
  | _ :: r => last_sat P r
  end.

(** [l] is the line [k] without some white space at its two ends. *)
Definition trimmed_of (l k : list N) : Prop :=
  exists a b, k = a ++ l ++ b /\ blank a = true /\ blank b = true.

(** No line of the text has a marker. *)
Definition marker_free (t : list N) : bool :=
  forallb (fun l => negb (has_marker l)) (splitlines t).

(** The only line-break characters of the text are line feeds. *)
Definition only_lf_breaks (t : list N) : bool :=
  forallb (fun c => negb (is_linebreak c) || (c =? LF)) t.

(** The outcome of the child process of one exercise in the loop of
    [create_report]. *)
Definition outcome (w : World) (task_file : Path) : result CompletedProcess :=
  subprocess_run w
    (command w task_file (TEST_ARGS w !! name task_file))
    (or_empty (TEST_INPUTS w !! name task_file))
    (parent task_file).

(** The exercise fails: its exit status is not zero, the timeout
    expires or the launch raises. *)
Definition failed (w : World) (task_file : Path) : Prop :=
  match outcome w task_file with
  | Return cp => returncode cp <> 0%Z
  | Raise _ => True
  end.

(** The entry the loop of [create_report] stores for one exercise. *)
Definition recorded (w : World) (task_file : Path) : list N :=
  match outcome w task_file with
  | Return cp =>
      if (returncode cp =? 0)%Z
      then let cleaned := sanitize_output (strip (stdout cp)) in
           match cleaned with [] => no_output | _ => cleaned end
      else no_output
  | Raise _ => no_output
  end.

(** [a <= b] on [str]: [not (b < a)]. *)
Definition str_le (a b : list N) : Prop := str_ltb b a = false.

(** What the loop of [create_report] leaves in [task_results]. *)
Definition task_results_of (w : World) (py_files : list Path)
    (task_results : gmap (list N) (list N)) : gmap (list N) (list N) :=
  fold_left (fun d f => <[name f := recorded w f]> d) py_files task_results.

(** The result of [capture_output] as the specification words it: on
    exit status zero the captured text with its trailing white space
    trimmed, no result otherwise. *)
Definition capture_spec (r : result CompletedProcess) : option (list N) :=
  match r with
  | Return cp =>
      if (returncode cp =? 0)%Z then Some (rstrip (stdout cp)) else None
  | Raise _ => None
  end.

(** ** The report as a list of blocks *)

(** A text that a run accepts: each character is one that XML allows. *)
Definition xml_text (s : list N) : bool := forallb xml_char s.

(** A block that the document accepts. *)
Definition block_ok (b : Block) : bool :=
  match b with
  | Heading text level => (level <=? 9)%nat && xml_text text
  | Paragraph text => xml_text text
  | ListBullet text => xml_text text
  | PageBreak => true
  end.

Definition blocks_ok (bs : list Block) : bool := forallb block_ok bs.

(** The call that appends a block, and the calls that append the blocks
    of a list one after the other: the first call that raises ends
    them. *)
Definition add_block (doc : list Block) (b : Block) : result (list Block) :=
  match b with
  | Heading text level => add_heading doc text level
  | Paragraph text => add_paragraph doc text
  | ListBullet text => add_list_bullet doc text
  | PageBreak => Return (add_page_break doc)
  end.

Fixpoint add_blocks (doc : list Block) (bs : list Block)
    : result (list Block) :=
  match bs with
  | [] => Return doc
  | b :: rest => doc ← add_block doc b; add_blocks doc rest
  end.

(** The exception is one of python-docx or of lxml. *)
Definition docx_error (e : exn) : Prop :=
  exn_cls e = ValueError \/ exn_cls e = UnicodeError.

(** The text of the paragraph of one line of a listing:
    [line if line.strip() else ""]. *)
Definition code_line (line : list N) : list N :=
  match strip line with [] => [] | _ => line end.

Definition code_paragraph (line : list N) : Block :=
  Paragraph (code_line line).

(** The notice for [k] lines left out of a listing. *)
Definition omitted_notice (k : Z) : list N :=
  u "... (залишилось " ++ str_of_Z k ++ u " рядків)".

(** The blocks of a listing of at most [max_lines] lines. *)
Definition listing_blocks (code_text : list N) (max_lines : nat)
    : list Block :=
  let lines := split_chr LF code_text in
  List.map code_paragraph (firstn max_lines lines)
  ++ (if (max_lines <? length lines)%nat
      then [Paragraph (omitted_notice
                         (Z.of_nat (length lines) - Z.of_nat max_lines))]
      else []).

(** The lines of a recorded result that are rendered. *)
Definition result_lines (output : list N) : list (list N) :=
  List.filter (fun ln => match strip ln with [] => false | _ => true end)
              (split_chr LF output).

(** The blocks of the result of an exercise. *)
Definition result_blocks (output : option (list N)) : list Block :=
  match output with
  | None =>
      [Paragraph (u "⊘ Скрипт аналізується як код без автоматичного виконання")]
  | Some output => List.map Paragraph (result_lines output)
  end.

(** The texts of the headings of one level, in the order of the document. *)
Definition headings (level : nat) (doc : list Block) : list (list N) :=
  flat_map (fun b => match b with
                     | Heading text l => if (l =? level)%nat then [text] else []
                     | _ => []
                     end) doc.

(** The heading of the section of the exercise number [task_num]. *)
Definition section_heading (task_num : nat) (f : Path) : list N :=
  str_of_Z (Z.of_nat task_num) ++ u ". " ++
  match TASK_DESCRIPTIONS !! name f with
  | Some task_info => title task_info
  | None => name f
  end.

Fixpoint section_headings (task_num : nat) (py_files : list Path)
    : list (list N) :=
  match py_files with
  | [] => []
  | f :: rest => section_heading task_num f :: section_headings (S task_num) rest
  end.

Definition overview_of (f : Path) : list N :=
  match TASK_DESCRIPTIONS !! name f with
  | Some task_info => description task_info ++ u "\nТема: " ++ topic task_info
  | None => u "Виконання завдання" ++ u "\nТема: " ++ u "Python"
  end.

(** The text that stands for the source of an exercise in its section. *)
Definition source_text (w : World) (f : Path) : list N :=
  match open_read w f with
  | Return text => text
  | Raise e => u "Помилка читання файлу: " ++ exn_str e
  end.

(** The three parts of a section: up to the listing, the listing, and
    from the result on. *)
Definition section_before_code (task_num : nat) (f : Path) : list Block :=
  [Heading (section_heading task_num f) 1;
   Heading (u "1.1 Короткий огляд") 2;
   Paragraph (overview_of f);
   Paragraph [];
   Heading (u "1.2 Вихідний код:") 2].

Definition section_after_code (task_results : gmap (list N) (list N))
    (n_files task_num : nat) (f : Path) : list Block :=
  [Paragraph []; Heading (u "1.3 Результат виконання:") 2]
  ++ result_blocks (task_results !! name f)
  ++ [Paragraph []; Heading (u "1.4 Висновки:") 2;
      Paragraph (get_task_conclusions (name f))]
  ++ (if (task_num <? n_files)%nat then [PageBreak] else []).

Definition section_of (w : World) (task_results : gmap (list N) (list N))
    (n_files task_num : nat) (f : Path) : list Block :=
  section_before_code task_num f
  ++ listing_blocks (source_text w f) 80
  ++ section_after_code task_results n_files task_num f.

Fixpoint sections_of (w : World) (task_results : gmap (list N) (list N))
    (n_files task_num : nat) (py_files : list Path) : list Block :=
  match py_files with
  | [] => []
  | f :: rest =>
      section_of w task_results n_files task_num f
      ++ sections_of w task_results n_files (S task_num) rest
  end.

(** The entries of the table of contents: the headings of the sections
    of the files that [TASK_DESCRIPTIONS] describes. *)
Fixpoint toc_entries (i : nat) (py_files : list Path) : list (list N) :=
  match py_files with
  | [] => []
  | f :: rest =>
      match TASK_DESCRIPTIONS !! name f with
      | Some _ => section_heading i f :: toc_entries (S i) rest
      | None => toc_entries (S i) rest
      end
  end.

Definition title_blocks (w : World) : list Block :=
  [Heading (u "ЗВІТ") 0;
   Paragraph (u "з лабораторної роботи №3");
   Paragraph (u "Тема: Функції, зовнішні модулі та файли у Python");
   Paragraph [];
   Paragraph (u "Дисципліна: Машинне навчання, обробка великих масивів даних");
   Paragraph [];
   Paragraph [];
   Paragraph (u "Виконав: аспірант\nНапрямок: 051 Економіка\nДата: "
              ++ now_dmY w);
   PageBreak].

(** What precedes the sections. *)
Definition front_part (w : World) (py_files : list Path) : list Block :=
  title_blocks w
  ++ [Heading (u "ЗМІСТ") 1]
  ++ List.map ListBullet (toc_entries 1 py_files)
  ++ [PageBreak; Heading (u "1. ТЕОРЕТИЧНІ ВІДОМОСТІ") 1;
      Paragraph theory_text; PageBreak;
      Heading (u "2. РЕЗУЛЬТАТИ ВИКОНАННЯ ЗАВДАНЬ") 1].

(** What follows the sections. *)
Definition closing_blocks : list Block :=
  [PageBreak;
   Heading (u "3. ВИСНОВКИ") 1;
   Paragraph general_conclusion;
   Heading (u "4. ВІДПОВІДІ НА КОНТРОЛЬНІ ЗАПИТАННЯ") 1;
   Heading (u "4.1 Опис функцій у Python. Рекурсія.") 2;
   Paragraph q1_answer;
   Heading (u "4.2 Поняття зовнішніх модулів та їх методів.") 2;
   Paragraph q2_answer;
   Heading (u "4.3 Файли та методи роботи із ними.") 2;
   Paragraph q3_answer].

(** The blocks of the report, in the order of the calls of
    [create_report]. *)
Definition report_blocks (w : World) (py_files : list Path)
    (task_results : gmap (list N) (list N)) : list Block :=
  front_part w py_files
  ++ sections_of w task_results (length py_files) 1 py_files
  ++ closing_blocks.

(** The texts of the section of a file that are not fixed by the script
    are accepted: the name of a file that [TASK_DESCRIPTIONS] does not
    describe, the lines of the listing that are shown (a line of white
    space only is shown empty), and the lines of the result that are
    rendered. *)
Definition section_texts_ok (w : World)
    (task_results : gmap (list N) (list N)) (f : Path) : bool :=
  match TASK_DESCRIPTIONS !! name f with
  | Some _ => true
  | None => xml_text (name f)
  end
  && forallb (fun line => xml_text (code_line line))
       (firstn 80 (split_chr LF (source_text w f)))
  && match task_results !! name f with
     | Some output => forallb xml_text (result_lines output)
     | None => true
     end.

(** Two worlds that differ at most in what reading the file [p] gives. *)
Definition agree_except_source (p : Path) (w w' : World) : Prop :=
  CURRENT_DIR w = CURRENT_DIR w'
  /\ sys_executable w = sys_executable w'
  /\ listdir w = listdir w'
  /\ (forall cmd input cwd,
        subprocess_run w cmd input cwd = subprocess_run w' cmd input cwd)
  /\ (forall q, q <> p -> open_read w q = open_read w' q)
  /\ now_dmY w = now_dmY w'
  /\ now_Ymd w = now_Ymd w'.

(** ** Worlds for the examples

    A directory [/lab] with the given entries; [run] gives the outcome
    of the child by the path of its script and [read] the content of a
    file. *)
Definition example_world (names : list (list N))
    (run : list N -> result CompletedProcess)
    (read : Path -> result (list N)) : World :=
  {| CURRENT_DIR := u "/lab";
     sys_executable := u "/usr/bin/python3";
     listdir := names;
     subprocess_run := fun cmd _ _ =>
       match cmd with
       | _ :: script :: _ => run script
       | _ => Raise {| exn_cls := OSError; exn_str := u "no script" |}
       end;
     open_read := read;
     now_dmY := u "04.11.2026";
     now_Ymd := u "20261104";
     doc_save := fun _ => Return () |}.

Definition exit_with (code : Z) (out : list N) : result CompletedProcess :=
  Return {| returncode := code; stdout := out |}.

Definition timeout_expired : result CompletedProcess :=
  Raise {| exn_cls := TimeoutExpired; exn_str := u "timed out" |}.

(** One exercise that exits with status zero and prints [" a\n"]. *)
Definition world_indented : World :=
  example_world [u "a.py"] (fun _ => exit_with 0 (u " a\n"))
    (fun _ => Return []).

(** Three exercises: [a.py] prints a number, [b.py] exits with status
    1, [c.py] prints only a diagnostic line; the source of [c.py] cannot
    be read. *)
Definition world_three : World :=
  example_world [u "c.py"; u "a.py"; u "notes.txt"; u "b.py"; u "Laba3_zvit.py"]
    (fun script =>
       if decide (script = u "/lab/a.py") then exit_with 0 (u "5! = 120\n")
       else if decide (script = u "/lab/b.py") then exit_with 1 []
       else if decide (script = u "/lab/c.py")
            then exit_with 0 (u "Error: bad input\n")
       else timeout_expired)
    (fun p =>
       if decide (p = {| parent := u "/lab"; name := u "c.py" |})
       then Raise {| exn_cls := OSError; exn_str := u "Permission denied" |}
       else Return (u "print(1)\n")).

(** The same directory with every source readable. *)
Definition world_three_readable : World :=
  example_world [u "c.py"; u "a.py"; u "notes.txt"; u "b.py"; u "Laba3_zvit.py"]
    (fun script =>
       if decide (script = u "/lab/a.py") then exit_with 0 (u "5! = 120\n")
       else if decide (script = u "/lab/b.py") then exit_with 1 []
       else if decide (script = u "/lab/c.py")
            then exit_with 0 (u "Error: bad input\n")
       else timeout_expired)
    (fun p => Return (u "print(1)\n")).

(** ** Further notions about texts and lines *)

(** The characters of the lines, counting one break for each line. *)
Fixpoint lines_size (ls : list (list N)) : nat :=
  match ls with
  | [] => 0
  | l :: ls' => S (length l) + lines_size ls'
  end.

(** The text has no line feed. *)
Definition lf_free (s : list N) : bool := forallb (fun c => negb (c =? LF)) s.

(** The text ends with a line feed. *)
Fixpoint ends_lf (s : list N) : bool :=
  match s with
  | [] => false
  | [c] => c =? LF
  | _ :: r => ends_lf r
  end.

(** What a recorded result is like: not empty, no white space at its
    ends, no line break but the line feed, no marker. *)
Definition clean_result (s : list N) : Prop :=
  s <> [] /\ strip s = s /\ only_lf_breaks s = true /\ has_marker s = false.

(** What a paragraph of a rendered result is like: some character that
    is not white space, no line break, no marker. *)
Definition clean_paragraph (p : list N) : Prop :=
  blank p = false /\ nobreak p = true /\ has_marker p = false.

(** The directory of [world_three], listed by the system in the
    opposite order. *)
Definition world_three_reversed : World :=
  {| CURRENT_DIR := CURRENT_DIR world_three;
     sys_executable := sys_executable world_three;
     listdir := rev (listdir world_three);
     subprocess_run := subprocess_run world_three;
     open_read := open_read world_three;
     now_dmY := now_dmY world_three;
     now_Ymd := now_Ymd world_three;
     doc_save := doc_save world_three |}.

(** ** Further notions about the report *)

(** The texts of the bullet entries, in the order of the document. *)
Definition bullets (doc : list Block) : list (list N) :=
  flat_map (fun b => match b with ListBullet text => [text] | _ => [] end) doc.

(** The number of page breaks. *)
Definition page_breaks (doc : list Block) : nat :=
  length (List.filter (fun b => match b with PageBreak => true | _ => false end)
                      doc).

(** The blocks are all paragraphs. *)
Definition all_paragraphs (doc : list Block) : Prop :=
  Forall (fun b => match b with Paragraph _ => True | _ => False end) doc.

(** The four sub-headings of a section. *)
Definition section_subheadings : list (list N) :=
  [u "1.1 Короткий огляд"; u "1.2 Вихідний код:";
   u "1.3 Результат виконання:"; u "1.4 Висновки:"].

(** [output_path] of [create_report]. *)
Definition report_path (w : World) : Path :=
  in_dir w (u "Звіт_Лабораторна_3_" ++ now_Ymd w ++ u ".docx").

(** The directory of [world_three] on a disk with no space left. *)
Definition world_full_disk : World :=
  {| CURRENT_DIR := CURRENT_DIR world_three;
     sys_executable := sys_executable world_three;
     listdir := listdir world_three;
     subprocess_run := subprocess_run world_three;
     open_read := open_read world_three;
     now_dmY := now_dmY world_three;
     now_Ymd := now_Ymd world_three;
     doc_save := fun _ =>
       Raise {| exn_cls := OSError; exn_str := u "No space left on device" |} |}.

(** ** The loop of the runs with its console messages *)

(** The two messages [print]ed for an exercise. *)
Definition ok_line (task_file : Path) : list N :=
  u "✓ " ++ name task_file ++ u ": OK".

Definition no_result_line (task_file : Path) : list N :=
  u "⊘ " ++ name task_file ++ u ": результат не отримано".

(** The loop of [create_report] that runs the exercises, with the lines
    it prints on the console as well as the results it records. *)
Fixpoint run_exercises (w : World) (py_files : list Path)
    (task_results : gmap (list N) (list N)) (console : list (list N))
    : result (gmap (list N) (list N) * list (list N)) :=
  match py_files with
  | [] => Return (task_results, console)
  | task_file :: rest =>
      let input_text := TEST_INPUTS w !! name task_file in
      let args := TEST_ARGS w !! name task_file in
      output ← capture_output w task_file input_text args;
      match output with
      | None =>
          run_exercises w rest
            (<[name task_file := no_output]> task_results)
            (console ++ [no_result_line task_file])
      | Some output =>
          let cleaned := sanitize_output output in
          run_exercises w rest
            (<[name task_file :=
                 match cleaned with [] => no_output | _ => cleaned end]>
               task_results)
            (console ++ [ok_line task_file])
      end
  end.

(** The message for an exercise, by the outcome of its child. *)
Definition status_line (w : World) (task_file : Path) : list N :=
  match outcome w task_file with
  | Return cp =>
      if (returncode cp =? 0)%Z then ok_line task_file
      else no_result_line task_file
  | Raise _ => no_result_line task_file
  end.

(** ** Texts and worlds for the examples of the document *)

(** A source of [k] lines [pass], each ended by a line feed. *)
Definition source_of_lines (k : nat) : list N :=
  concat (repeat (u "pass\n") k).

(** An exercise that prints in bold on a terminal: the escape character
    U+001B stays in its output. *)
Definition world_escape : World :=
  example_world [u "a.py"]
    (fun _ => exit_with 0 ([27] ++ u "[1mdone" ++ [27] ++ u "[0m\n"))
    (fun _ => Return (u "print(1)\n")).

(** * Properties *)

(** ** Evaluation of the string model on literals *)

Example u_error : u "Error" = [69; 114; 114; 111; 114].
Proof. reflexivity. Qed.

Example u_cross : u "✗" = [10007].
Proof. reflexivity. Qed.

Example u_newline : u "\n" = [LF].
Proof. reflexivity. Qed.

Example splitlines_ex : splitlines (u "a\n\nb\n") = [u "a"; []; u "b"].
Proof. reflexivity. Qed.

Example splitlines_crlf : splitlines [97; CR; LF; 98] = [[97]; [98]].
Proof. reflexivity. Qed.

Example split_chr_ex : split_chr LF (u "a\n\nb\n") = [u "a"; []; u "b"; []].
Proof. reflexivity. Qed.

Example strip_ex : strip (u "  a b \n") = u "a b".
Proof. reflexivity. Qed.

Example str_of_Z_ex : str_of_Z 120 = u "120".
Proof. reflexivity. Qed.

(** ** White space at the ends of a text *)

Lemma blank_app a b : blank (a ++ b) = blank a && blank b.
Proof. apply forallb_app. Qed.

Lemma lstrip_blank l : blank l = true -> lstrip l = [].
Proof.
  induction l as [|c l IH]; simpl; [done|].
  destruct (isspace c); simpl; [exact IH | discriminate].
Qed.

Lemma lstrip_nil_blank l : lstrip l = [] -> blank l = true.
Proof.
  induction l as [|c l IH]; simpl; [done|].
  destruct (isspace c); simpl; [exact IH | discriminate].
Qed.

Lemma blank_lstrip l : blank (lstrip l) = blank l.
Proof.
  induction l as [|c l IH]; simpl; [done|].
  destruct (isspace c) eqn:E; simpl; [exact IH | by rewrite E].
Qed.

Lemma rstrip_blank l : blank l = true -> rstrip l = [].
Proof.
  induction l as [|c l IH]; simpl; [done|].
  destruct (isspace c); simpl; [|discriminate].
  intros H. by rewrite (IH H).
Qed.

Lemma rstrip_nil_blank l : rstrip l = [] -> blank l = true.
Proof.
  induction l as [|c l IH]; simpl; [done|].
  destruct (rstrip l) eqn:E; [|discriminate].
  destruct (isspace c); simpl; [intros _; by apply IH | discriminate].
Qed.

Lemma rstrip_nonblank l : blank l = false -> rstrip l <> [].
Proof.
  intros H E. apply rstrip_nil_blank in E. congruence.
Qed.

Lemma blank_rstrip l : blank (rstrip l) = blank l.
Proof.
  destruct (blank l) eqn:E.
  - by rewrite (rstrip_blank l E).
  - induction l as [|c l IH]; simpl in *; [done|].
    destruct (rstrip l) eqn:R.
    + destruct (isspace c) eqn:C; simpl in *; [|by rewrite C].
      apply rstrip_nil_blank in R. congruence.
    + change (blank (c :: n :: l0)) with (isspace c && blank (n :: l0)).
      destruct (isspace c); simpl in *; [by apply IH | done].
Qed.

Lemma lstrip_app a b :
  lstrip (a ++ b) = if blank a then lstrip b else lstrip a ++ b.
Proof.
  induction a as [|c a IH]; simpl; [done|].
  destruct (isspace c); simpl; [exact IH | done].
Qed.

Lemma rstrip_app a b :
  rstrip (a ++ b) = if blank b then rstrip a else a ++ rstrip b.
Proof.
  induction a as [|c a IH]; simpl.
  - destruct (blank b) eqn:E; [by apply rstrip_blank | done].
  - rewrite IH. destruct (blank b) eqn:E; [done|].
    destruct (a ++ rstrip b) eqn:F; [|done].
    apply app_eq_nil in F as [_ F]. by apply rstrip_nonblank in F.
Qed.

Lemma lstrip_idem l : lstrip (lstrip l) = lstrip l.
Proof.
  induction l as [|c l IH]; simpl; [done|].
  destruct (isspace c) eqn:E; [exact IH | simpl; by rewrite E].
Qed.

Lemma rstrip_idem l : rstrip (rstrip l) = rstrip l.
Proof.
  induction l as [|c l IH]; simpl; [done|].
  destruct (rstrip l) eqn:R.
  - destruct (isspace c) eqn:E; simpl; [done | by rewrite E].
  - simpl in *. by rewrite IH.
Qed.

(** [rstrip] leaves the first character in place when it is not white
    space, so stripping on the left commutes with it. *)
Lemma lstrip_rstrip l : lstrip (rstrip l) = rstrip (lstrip l).
Proof.
  induction l as [|c l IH]; simpl; [done|].
  destruct (rstrip l) as [|n r] eqn:R; destruct (isspace c) eqn:E;
    simpl; rewrite ?E, ?R; try done.
Qed.

Lemma strip_idem l : strip (strip l) = strip l.
Proof.
  unfold strip.
  by rewrite (lstrip_rstrip (lstrip l)), lstrip_idem, rstrip_idem.
Qed.

(** ** [strip] on lines joined by line feeds *)

Lemma join_cons2 sep l l2 r :
  join sep (l :: l2 :: r) = l ++ sep ++ join sep (l2 :: r).
Proof. reflexivity. Qed.

Lemma blank_join ls : blank (join [LF] ls) = forallb blank ls.
Proof.
  induction ls as [|l [|l2 r] IH].
  - done.
  - simpl. by rewrite andb_true_r.
  - rewrite join_cons2, !blank_app, IH. done.
Qed.

Lemma lstrip_join ls :
  lstrip (join [LF] ls) = join [LF] (lstrip_first (drop_leading_blank ls)).
Proof.
  induction ls as [|l [|l2 r] IH].
  - done.
  - simpl. destruct (blank l) eqn:E; [by apply lstrip_blank | done].
  - rewrite join_cons2, lstrip_app.
    change (drop_leading_blank (l :: l2 :: r))
      with (if blank l then drop_leading_blank (l2 :: r) else l :: l2 :: r).
    destruct (blank l); [exact IH | done].
Qed.

Lemma drop_trailing_blank_nil ls :
  drop_trailing_blank ls = [] <-> forallb blank ls = true.
Proof.
  induction ls as [|l ls IH]; simpl; [done|].
  destruct (drop_trailing_blank ls) eqn:D.
  - destruct IH as [IH _]. rewrite (IH eq_refl), andb_true_r.
    destruct (blank l); split; done.
  - destruct (forallb blank ls); [by destruct IH as [_ IH]; discriminate IH|].
    rewrite andb_false_r. split; done.
Qed.

Lemma rstrip_last_nil ls : rstrip_last ls = [] -> ls = [].
Proof. destruct ls as [|l [|l2 r]]; simpl; done. Qed.

Lemma rstrip_join ls :
  rstrip (join [LF] ls) = join [LF] (rstrip_last (drop_trailing_blank ls)).
Proof.
  induction ls as [|l ls IH]; [done|].
  destruct ls as [|l2 r].
  - simpl. destruct (blank l) eqn:E; [by apply rstrip_blank | done].
  - rewrite join_cons2, rstrip_app, blank_app, blank_join.
    change (blank [LF]) with true. rewrite andb_true_l.
    change (drop_trailing_blank (l :: l2 :: r))
      with (match drop_trailing_blank (l2 :: r) with
            | [] => if blank l then [] else [l]
            | x :: xs => l :: x :: xs
            end).
    destruct (forallb blank (l2 :: r)) eqn:F.
    + apply drop_trailing_blank_nil in F as ->.
      destruct (blank l) eqn:E; [by apply rstrip_blank | done].
    + destruct (drop_trailing_blank (l2 :: r)) as [|x xs] eqn:D.
      { apply drop_trailing_blank_nil in D. congruence. }
      assert (J : blank (join [LF] (l2 :: r)) = false) by by rewrite blank_join.
      change ([LF] ++ join [LF] (l2 :: r)) with (LF :: join [LF] (l2 :: r)).
      change (rstrip (LF :: join [LF] (l2 :: r)))
        with (match rstrip (join [LF] (l2 :: r)) with
              | [] => if isspace LF then [] else [LF]
              | y :: ys => LF :: y :: ys
              end).
      destruct (rstrip (join [LF] (l2 :: r))) as [|y ys] eqn:R.
      { by apply rstrip_nonblank in R. }
      rewrite IH.
      destruct (rstrip_last (x :: xs)) as [|z zs] eqn:Z.
      { by apply rstrip_last_nil in Z. }
      change (rstrip_last (l :: x :: xs)) with (l :: rstrip_last (x :: xs)).
      rewrite Z. done.
Qed.

Lemma drop_trailing_lstrip_first ls :
  drop_trailing_blank (lstrip_first ls) =
  lstrip_first (drop_trailing_blank ls).
Proof.
  destruct ls as [|l ls]; simpl; [done|].
  rewrite blank_lstrip.
  destruct (drop_trailing_blank ls); [by destruct (blank l) | done].
Qed.

(** [strip] of the joined lines: the blank lines at the two ends go,
    then the white space before the first line and after the last. *)
Lemma strip_join ls :
  strip (join [LF] ls) =
  join [LF] (rstrip_last (lstrip_first (trim_blank_lines ls))).
Proof.
  unfold strip, trim_blank_lines.
  by rewrite lstrip_join, rstrip_join, drop_trailing_lstrip_first.
Qed.

(** ** Substrings *)

Lemma startswith_spec p s : startswith p s = true <-> exists b, s = p ++ b.
Proof.
  revert s. induction p as [|a p IH]; intros s; simpl.
  - split; [intros _; by exists s | done].
  - destruct s as [|c s]; [split; [done | by intros [b Hb]]|].
    rewrite andb_true_iff, N.eqb_eq, IH. split.
    + intros [-> [b ->]]. by exists b.
    + intros [b Hb]. injection Hb as -> ->. split; [done | by exists b].
Qed.

(** [tok in s] holds exactly when [tok] occurs in [s]. *)
Lemma contains_spec p s :
  contains p s = true <-> exists a b, s = a ++ p ++ b.
Proof.
  induction s as [|c s IH]; simpl.
  - rewrite orb_false_r, startswith_spec. split.
    + intros [b Hb]. by exists [], b.
    + intros [a [b Hb]]. destruct a; [by exists b | done].
  - rewrite orb_true_iff, startswith_spec, IH. split.
    + intros [[b Hb] | [a [b Hb]]]; [by exists [], b|].
      exists (c :: a), b. by rewrite Hb.
    + intros [[|c' a] [b Hb]]; [left; by exists b|].
      right. injection Hb as -> ->. by exists a, b.
Qed.

Lemma contains_infix p a s b :
  contains p s = true -> contains p (a ++ s ++ b) = true.
Proof.
  rewrite !contains_spec. intros [x [y ->]].
  exists (a ++ x), (y ++ b). by rewrite <- !app_assoc.
Qed.

Lemma has_marker_spec l :
  has_marker l = true <-> exists m a b, In m markers /\ l = a ++ m ++ b.
Proof.
  unfold has_marker. rewrite existsb_exists. split.
  - intros [m [Hm Hc]]. apply contains_spec in Hc as [a [b ->]].
    by exists m, a, b.
  - intros [m [a [b [Hm ->]]]]. exists m. split; [done|].
    apply contains_spec. by exists a, b.
Qed.

Lemma has_marker_infix a s b :
  has_marker (a ++ s ++ b) = false -> has_marker s = false.
Proof.
  intros H. destruct (has_marker s) eqn:E; [|done].
  unfold has_marker in *. apply existsb_exists in E as [m [Hm Hc]].
  rewrite <- H. symmetry. apply existsb_exists. exists m.
  split; [done | by apply contains_infix].
Qed.

Lemma lstrip_suffix l : exists a, l = a ++ lstrip l /\ blank a = true.
Proof.
  induction l as [|c l [a [IH B]]]; simpl; [by exists []|].
  destruct (isspace c) eqn:E; [|by exists []].
  exists (c :: a). simpl. rewrite E, B. by rewrite <- IH.
Qed.

Lemma rstrip_prefix l : exists b, l = rstrip l ++ b /\ blank b = true.
Proof.
  induction l as [|c l [b [IH B]]]; simpl; [by exists []|].
  destruct (rstrip l) as [|x r] eqn:R.
  - destruct (isspace c) eqn:E.
    + exists (c :: l). split; [done|]. simpl. rewrite E. simpl in IH.
      by rewrite IH.
    + exists b. simpl in *. split; [by f_equal | done].
  - exists b. simpl in *. split; [by f_equal | done].
Qed.

Lemma hereditary_lstrip P l : hereditary P -> P l -> P (lstrip l).
Proof.
  intros HP Hl. destruct (lstrip_suffix l) as [a [E _]].
  apply (HP a (lstrip l) []). by rewrite app_nil_r, <- E.
Qed.

Lemma hereditary_rstrip P l : hereditary P -> P l -> P (rstrip l).
Proof.
  intros HP Hl. destruct (rstrip_prefix l) as [b [E _]].
  apply (HP [] (rstrip l) b). simpl. by rewrite <- E.
Qed.

Lemma hereditary_no_marker : hereditary (fun l => has_marker l = false).
Proof. intros a s b. apply has_marker_infix. Qed.

Lemma hereditary_nobreak : hereditary (fun l => nobreak l = true).
Proof.
  intros a s b. unfold nobreak. rewrite !forallb_app, !andb_true_iff.
  tauto.
Qed.

(** ** [splitlines] *)

Lemma after_break_length c s : (length (after_break c s) <= length s)%nat.
Proof.
  destruct s as [|c' s]; simpl; [done|].
  destruct ((c =? CR) && (c' =? LF)); simpl; lia.
Qed.

Lemma splitlines_nobreak_upto n s :
  (length s <= n)%nat -> Forall (fun l => nobreak l = true) (splitlines s).
Proof.
  revert s. induction n as [|n IH]; intros [|c s] Hn; simpl in *;
    try (constructor; fail); try lia.
  destruct (is_linebreak c) eqn:E.
  - constructor; [done|]. apply IH.
    pose proof (after_break_length c s). lia.
  - assert (Hs : Forall (fun l => nobreak l = true) (splitlines s))
      by (apply IH; lia).
    destruct (splitlines s) as [|l ls].
    + constructor; [|done]. simpl. by rewrite E.
    + inversion Hs; subst. constructor; [|done]. simpl. by rewrite E.
Qed.

(** No line that [splitlines] returns has a line-break character. *)
Lemma splitlines_nobreak s :
  Forall (fun l => nobreak l = true) (splitlines s).
Proof. by apply (splitlines_nobreak_upto (length s)). Qed.

Lemma splitlines_line_app l rest :
  nobreak l = true -> splitlines (l ++ LF :: rest) = l :: splitlines rest.
Proof.
  induction l as [|c l IH]; simpl.
  - intros _. by destruct rest.
  - rewrite andb_true_iff, negb_true_iff. intros [-> Hl].
    by rewrite (IH Hl).
Qed.

Lemma splitlines_line l :
  nobreak l = true -> l <> [] -> splitlines l = [l].
Proof.
  induction l as [|c l IH]; simpl; [done|].
  rewrite andb_true_iff, negb_true_iff. intros [-> Hl] _.
  destruct l as [|c' l]; [done|]. by rewrite (IH Hl).
Qed.

(** Lines without breaks, the last one not empty, are what [splitlines]
    finds in their [join]. *)
Lemma splitlines_join ls :
  Forall (fun l => nobreak l = true) ls ->
  last_sat (fun l => l <> []) ls ->
  splitlines (join [LF] ls) = ls.
Proof.
  induction ls as [|l [|l2 r] IH]; intros HF HL.
  - done.
  - inversion HF; subst. by apply splitlines_line.
  - inversion HF; subst. rewrite join_cons2.
    change ([LF] ++ join [LF] (l2 :: r)) with (LF :: join [LF] (l2 :: r)).
    rewrite splitlines_line_app by done. f_equal. by apply IH.
Qed.

(** ** The lines the sanitizer keeps *)

Lemma sanitize_loop_filter acc ls :
  sanitize_loop acc ls =
  acc ++ List.filter (fun l => negb (has_marker l)) ls.
Proof.
  revert acc. induction ls as [|l ls IH]; intros acc; simpl.
  - by rewrite app_nil_r.
  - destruct (has_marker l); simpl; [apply IH|].
    by rewrite IH, <- app_assoc.
Qed.

Lemma sanitize_output_strip t :
  sanitize_output t = strip (join [LF] (kept_lines t)).
Proof.
  destruct t as [|c t]; [done|].
  unfold sanitize_output, kept_lines. by rewrite sanitize_loop_filter.
Qed.

Lemma sanitize_output_join t :
  sanitize_output t =
  join [LF] (rstrip_last (lstrip_first (trim_blank_lines (kept_lines t)))).
Proof. by rewrite sanitize_output_strip, strip_join. Qed.

Lemma sublist_drop_leading_blank ls : sublist (drop_leading_blank ls) ls.
Proof.
  induction ls as [|l ls IH]; simpl; [constructor|].
  destruct (blank l); [by constructor | reflexivity].
Qed.

Lemma sublist_drop_trailing_blank ls : sublist (drop_trailing_blank ls) ls.
Proof.
  induction ls as [|l ls IH]; simpl; [constructor|].
  destruct (drop_trailing_blank ls) as [|x r] eqn:D.
  - destruct (blank l); [by constructor | by apply sublist_skip].
  - by apply sublist_skip.
Qed.

Lemma sublist_list_filter {A} (f : A -> bool) (l : list A) :
  sublist (List.filter f l) l.
Proof.
  induction l as [|x l IH]; simpl; [constructor|].
  destruct (f x); by constructor.
Qed.

Lemma Forall_of_sublist {A} (P : A -> Prop) (l1 l2 : list A) :
  sublist l1 l2 -> Forall P l2 -> Forall P l1.
Proof.
  induction 1 as [|x l1 l2 _ IH|x l1 l2 _ IH]; intros HF.
  - constructor.
  - inversion HF; subst. constructor; [done | by apply IH].
  - inversion HF; subst. by apply IH.
Qed.

Lemma sublist_trim_kept t :
  sublist (trim_blank_lines (kept_lines t)) (splitlines t).
Proof.
  unfold trim_blank_lines, kept_lines.
  etransitivity; [apply sublist_drop_trailing_blank|].
  etransitivity; [apply sublist_drop_leading_blank|].
  apply sublist_list_filter.
Qed.

Lemma Forall_strip_ends (P : list N -> Prop) ls :
  hereditary P -> Forall P ls -> Forall P (rstrip_last (lstrip_first ls)).
Proof.
  intros HP HF.
  assert (HL : Forall P (lstrip_first ls)).
  { destruct HF; simpl; constructor; [by apply hereditary_lstrip | done]. }
  clear HF. induction HL as [|l [|l2 r] Hl Hr IH].
  - constructor.
  - constructor; [by apply hereditary_rstrip | done].
  - change (rstrip_last (l :: l2 :: r)) with (l :: rstrip_last (l2 :: r)).
    by constructor.
Qed.

Lemma kept_lines_no_marker t :
  Forall (fun l => has_marker l = false) (kept_lines t).
Proof.
  apply List.Forall_forall. intros l Hl.
  apply List.filter_In in Hl as [_ Hl]. by apply negb_true_iff.
Qed.

Lemma last_sat_drop_trailing_blank ls :
  last_sat (fun l => blank l = false) (drop_trailing_blank ls).
Proof.
  induction ls as [|l ls IH]; simpl; [done|].
  destruct (drop_trailing_blank ls) as [|x r] eqn:D.
  - by destruct (blank l) eqn:E.
  - done.
Qed.

Lemma last_sat_strip_ends ls :
  last_sat (fun l => blank l = false) ls ->
  last_sat (fun l => l <> []) (rstrip_last (lstrip_first ls)).
Proof.
  intros H.
  assert (HL : last_sat (fun l => blank l = false) (lstrip_first ls)).
  { destruct ls as [|l [|l2 r]]; simpl in *; [done| |done].
    by rewrite blank_lstrip. }
  clear H. induction (lstrip_first ls) as [|l [|l2 r] IH].
  - done.
  - simpl in *. by apply rstrip_nonblank.
  - change (rstrip_last (l :: l2 :: r)) with (l :: rstrip_last (l2 :: r)).
    destruct (rstrip_last (l2 :: r)) as [|z zs] eqn:Z.
    { by apply rstrip_last_nil in Z. }
    by apply IH.
Qed.

(** The lines of the sanitized text. *)
Lemma splitlines_sanitize_output t :
  splitlines (sanitize_output t) =
  rstrip_last (lstrip_first (trim_blank_lines (kept_lines t))).
Proof.
  rewrite sanitize_output_join. apply splitlines_join.
  - apply Forall_strip_ends; [apply hereditary_nobreak|].
    eapply Forall_of_sublist; [apply sublist_trim_kept|].
    apply splitlines_nobreak.
  - apply last_sat_strip_ends, last_sat_drop_trailing_blank.
Qed.

Lemma trimmed_of_refl l : trimmed_of l l.
Proof. exists [], []. by rewrite app_nil_r. Qed.

Lemma trimmed_of_rstrip_last ks : Forall2 trimmed_of (rstrip_last ks) ks.
Proof.
  induction ks as [|k [|k2 r] IH].
  - constructor.
  - constructor; [|constructor].
    destruct (rstrip_prefix k) as [b [E B]]. by exists [], b.
  - change (rstrip_last (k :: k2 :: r)) with (k :: rstrip_last (k2 :: r)).
    constructor; [apply trimmed_of_refl | exact IH].
Qed.

Lemma trimmed_of_strip_ends ks :
  Forall2 trimmed_of (rstrip_last (lstrip_first ks)) ks.
Proof.
  destruct ks as [|k [|k2 r]].
  - constructor.
  - constructor; [|constructor].
    destruct (lstrip_suffix k) as [a [E A]].
    destruct (rstrip_prefix (lstrip k)) as [b [E' B]].
    exists a, b. by rewrite <- E', <- E.
  - change (rstrip_last (lstrip_first (k :: k2 :: r)))
      with (lstrip k :: rstrip_last (k2 :: r)).
    constructor; [|apply trimmed_of_rstrip_last].
    destruct (lstrip_suffix k) as [a [E A]].
    exists a, []. by rewrite app_nil_r, <- E.
Qed.

Lemma list_filter_all {A} (f : A -> bool) (l : list A) :
  Forall (fun x => f x = true) l -> List.filter f l = l.
Proof.
  induction 1 as [|x l Hx _ IH]; simpl; [done|]. by rewrite Hx, IH.
Qed.

Lemma kept_lines_all t :
  Forall (fun l => has_marker l = false) (splitlines t) ->
  kept_lines t = splitlines t.
Proof.
  intros H. apply list_filter_all.
  eapply Forall_impl; [exact H|]. intros l Hl. simpl in Hl. by rewrite Hl.
Qed.

Lemma splitlines_nil s : splitlines s = [] -> s = [].
Proof.
  destruct s as [|c s]; simpl; [done|].
  destruct (is_linebreak c); [done|]. by destruct (splitlines s).
Qed.

(** A text whose only line breaks are line feeds, and which does not
    end in white space, is the [join] of its lines. *)
Lemma join_splitlines t :
  (forall c, In c t -> is_linebreak c = true -> c = LF) ->
  rstrip t = t ->
  join [LF] (splitlines t) = t.
Proof.
  induction t as [|c t IH]; intros HB HR; simpl in *; [done|].
  assert (Ht : rstrip t = t /\ (t = [] -> isspace c = false)).
  { destruct (rstrip t) as [|x r] eqn:R.
    - destruct (isspace c); [done|]. injection HR as <-. done.
    - injection HR as <-. done. }
  destruct Ht as [Rt Hc].
  assert (IH' : join [LF] (splitlines t) = t) by (apply IH; auto).
  destruct (is_linebreak c) eqn:E.
  - assert (c = LF) as -> by auto.
    destruct t as [|c' t]; [by specialize (Hc eq_refl)|].
    change (after_break LF (c' :: t)) with (c' :: t).
    destruct (splitlines (c' :: t)) as [|l ls] eqn:S.
    { by apply splitlines_nil in S. }
    rewrite join_cons2. simpl. by rewrite <- IH'.
  - destruct (splitlines t) as [|l ls] eqn:S.
    { apply splitlines_nil in S as ->. done. }
    destruct ls; simpl in *; by rewrite <- IH'.
Qed.

Lemma strip_fixed_rstrip t : strip t = t -> rstrip t = t.
Proof. intros H. rewrite <- H. apply rstrip_idem. Qed.

(** A text the sanitizer has nothing to do on. *)
Lemma sanitize_output_fixed t :
  Forall (fun l => has_marker l = false) (splitlines t) ->
  strip t = t ->
  (forall c, In c t -> is_linebreak c = true -> c = LF) ->
  sanitize_output t = t.
Proof.
  intros HM HS HB.
  rewrite sanitize_output_strip, kept_lines_all by done.
  rewrite join_splitlines; [done | done | by apply strip_fixed_rstrip].
Qed.

Lemma sanitize_output_twice t :
  sanitize_output (sanitize_output t) = sanitize_output t.
Proof.
  rewrite (sanitize_output_strip (sanitize_output t)).
  unfold kept_lines at 1. rewrite splitlines_sanitize_output.
  rewrite list_filter_all.
  - rewrite <- sanitize_output_join, sanitize_output_strip. apply strip_idem.
  - eapply Forall_impl.
    + apply (Forall_strip_ends (fun l => has_marker l = false));
        [apply hereditary_no_marker|].
      eapply Forall_of_sublist; [apply sublist_drop_trailing_blank|].
      eapply Forall_of_sublist; [apply sublist_drop_leading_blank|].
      apply kept_lines_no_marker.
    + intros l Hl. simpl in Hl. by rewrite Hl.
Qed.

(** ** The sanitizer: claims C2, C3, C4 *)

(** C2, as stated, fails: the last step of [sanitize_output] is
    [str.strip], which removes white space, not blank lines only.  In
    ["Error: bad input\n  7"] the line that remains is ["  7"]; no blank
    line is left to trim, and the sanitizer returns ["7"]. *)
Lemma sanitize_output_not_blank_line_trim :
  sanitize_output (u "Error: bad input\n  7") = u "7"
  /\ sanitize_spec (u "Error: bad input\n  7") = u "  7"
  /\ sanitize_output (u "Error: bad input\n  7")
     <> sanitize_spec (u "Error: bad input\n  7").
Proof. repeat split; vm_compute; congruence. Qed.

(** C2 (amended): [sanitize_output] splits the text with [splitlines],
    keeps exactly the lines in which none of the five markers occurs,
    joins them with line feeds and strips the white space at the two ends
    of the result: the blank lines at the ends go, and so does the white
    space before the first remaining line and after the last one.  On the
    text of scenario 4 the result is ["3\n7"]. *)
Theorem sanitize_output_contract t :
  sanitize_loop [] (splitlines t) = kept_lines t
  /\ (forall l, In l (kept_lines t) <->
        In l (splitlines t) /\
        ~ exists m a b, In m markers /\ l = a ++ m ++ b)
  /\ sanitize_output t =
     join (u "\n")
       (rstrip_last (lstrip_first (trim_blank_lines (kept_lines t))))
  /\ sanitize_output (u "3\nError: bad input\n7\n") = u "3\n7".
Proof.
  split; [apply sanitize_loop_filter|].
  split; [|split; [apply sanitize_output_join | reflexivity]].
  intros l. unfold kept_lines. rewrite List.filter_In, negb_true_iff.
  rewrite <- has_marker_spec. destruct (has_marker l); split.
  - intros [_ H]. discriminate.
  - intros [_ H]. by destruct H.
  - intros [H _]. split; [done | discriminate].
  - intros [H _]. by split.
Qed.

(** C3, as stated, fails: on ["Error: bad input\n  7"] the output has
    the line ["7"], and the lines of the input are ["Error: bad input"]
    and ["  7"]. *)
Lemma sanitize_output_line_not_verbatim :
  splitlines (sanitize_output (u "Error: bad input\n  7")) = [u "7"]
  /\ splitlines (u "Error: bad input\n  7") = [u "Error: bad input"; u "  7"]
  /\ In (u "7") (splitlines (sanitize_output (u "Error: bad input\n  7")))
  /\ ~ In (u "7") (splitlines (u "Error: bad input\n  7")).
Proof.
  repeat split; vm_compute; [by left|]. intros [H | [H | []]]; discriminate.
Qed.

(** C3 (amended): the lines of the output are, in the same order, some
    of the lines of the input that have no marker, each of them
    unchanged except for white space removed at its ends: only before
    the first line of the output and after its last line.  No line is
    added. *)
Theorem sanitize_output_lines_from_input t :
  let ks := trim_blank_lines (kept_lines t) in
  sublist ks (splitlines t)
  /\ Forall (fun k => has_marker k = false) ks
  /\ splitlines (sanitize_output t) = rstrip_last (lstrip_first ks)
  /\ Forall2 trimmed_of (splitlines (sanitize_output t)) ks.
Proof.
  intros ks. split; [apply sublist_trim_kept|]. split; [|split].
  - eapply Forall_of_sublist; [apply sublist_drop_trailing_blank|].
    eapply Forall_of_sublist; [apply sublist_drop_leading_blank|].
    apply kept_lines_no_marker.
  - apply splitlines_sanitize_output.
  - rewrite splitlines_sanitize_output. apply trimmed_of_strip_ends.
Qed.

(** C4, as stated, fails: no line of ["a\n"] has a marker, and the
    sanitizer returns ["a"]. *)
Lemma sanitize_output_changes_marker_free_text :
  marker_free (u "a\n") = true /\ sanitize_output (u "a\n") <> u "a\n".
Proof. split; vm_compute; congruence. Qed.

(** C4 (amended): applying [sanitize_output] to its own output returns
    that output unchanged; and a text in which no line has a marker is
    returned unchanged when it has no white space at its two ends and no
    line break other than the line feed. *)
Theorem sanitize_output_idempotent t :
  sanitize_output (sanitize_output t) = sanitize_output t
  /\ (marker_free t = true -> strip t = t -> only_lf_breaks t = true ->
      sanitize_output t = t).
Proof.
  split; [apply sanitize_output_twice|].
  intros HM HS HB. apply sanitize_output_fixed; [|done|].
  - unfold marker_free in HM. rewrite forallb_forall in HM.
    apply List.Forall_forall. intros l Hl. apply negb_true_iff. auto.
  - unfold only_lf_breaks in HB. rewrite forallb_forall in HB.
    intros c Hc E. specialize (HB c Hc). rewrite E in HB. simpl in HB.
    by apply N.eqb_eq.
Qed.

Lemma sanitize_output_idempotent_witness :
  sanitize_output (u "3\n7") = u "3\n7".
Proof.
  apply (proj2 (sanitize_output_idempotent (u "3\n7"))); reflexivity.
Defined.

(** ** The coordinator: claim C1 *)

Lemma lstrip_length l : (length (lstrip l) <= length l)%nat.
Proof.
  induction l as [|c l IH]; simpl; [done|].
  destruct (isspace c); simpl; lia.
Qed.

Lemma lstrip_strip s : lstrip (strip s) = strip s.
Proof. unfold strip. by rewrite lstrip_rstrip, lstrip_idem. Qed.

Lemma strip_trimmed s : trimmed_of (strip s) s.
Proof.
  destruct (lstrip_suffix s) as [a [E A]].
  destruct (rstrip_prefix (lstrip s)) as [b [E' B]].
  exists a, b. unfold strip. by rewrite <- E', <- E.
Qed.

Lemma strip_no_leading_space s c r : strip s = c :: r -> isspace c = false.
Proof.
  intros E. pose proof (lstrip_strip s) as H. rewrite E in H. simpl in H.
  destruct (isspace c); [|done].
  pose proof (lstrip_length r) as L. rewrite H in L. simpl in L. lia.
Qed.

Lemma strip_no_trailing_space s r c :
  strip s = r ++ [c] -> isspace c = false.
Proof.
  intros E. assert (H : rstrip (strip s) = strip s) by apply rstrip_idem.
  rewrite E, rstrip_app in H. simpl in H.
  destruct (isspace c); [|done]. simpl in H.
  destruct (rstrip_prefix r) as [b [Eb _]].
  apply (f_equal length) in Eb. rewrite H in Eb.
  rewrite !length_app in Eb. simpl in Eb. lia.
Qed.

Lemma capture_output_eq w p input args :
  capture_output w p input args =
  Return match subprocess_run w (command w p args) (or_empty input)
                 (parent p) with
         | Return cp =>
             if (returncode cp =? 0)%Z then Some (strip (stdout cp))
             else None
         | Raise _ => None
         end.
Proof.
  unfold capture_output. cbv zeta.
  destruct (subprocess_run _ _ _ _) as [cp|e]; simpl.
  - by destruct (returncode cp =? 0)%Z.
  - by destruct (is_TimeoutExpired (exn_cls e)).
Qed.

(** C1, as stated, fails: [capture_output] applies [str.strip], which
    trims the captured text at both ends.  A child that prints [" a\n"]
    and exits with status zero gives ["a"], and the text with its
    trailing white space trimmed is [" a"]. *)
Lemma capture_output_trims_leading_space :
  capture_output world_indented (in_dir world_indented (u "a.py")) None None
  = Return (Some (u "a"))
  /\ capture_spec (outcome world_indented (in_dir world_indented (u "a.py")))
     = Some (u " a")
  /\ capture_output world_indented (in_dir world_indented (u "a.py"))
       None None
     <> Return (capture_spec
                  (outcome world_indented (in_dir world_indented (u "a.py")))).
Proof. repeat split; vm_compute; congruence. Qed.

(** C1 (amended): when the child exits with status zero,
    [capture_output] returns its captured standard output with the
    leading and the trailing white space trimmed; when the exit status is
    not zero, the timeout expires or the launch fails, it returns [None];
    it never raises.  The trimmed text [strip s] is [s] without a run of
    white space at each end, and neither begins nor ends with white
    space. *)
Theorem capture_output_result w script_path input_text args :
  capture_output w script_path input_text args =
  Return match subprocess_run w (command w script_path args)
                 (or_empty input_text) (parent script_path) with
         | Return cp =>
             if (returncode cp =? 0)%Z then Some (strip (stdout cp))
             else None
         | Raise _ => None
         end
  /\ forall s,
       trimmed_of (strip s) s
       /\ (forall c r, strip s = c :: r -> isspace c = false)
       /\ (forall r c, strip s = r ++ [c] -> isspace c = false).
Proof.
  split; [apply capture_output_eq|]. intros s.
  split; [apply strip_trimmed|].
  split; [apply strip_no_leading_space | apply strip_no_trailing_space].
Qed.

(** ** Discovery: the order on names and [sorted] *)

Lemma str_ltb_irrefl a : str_ltb a a = false.
Proof.
  induction a as [|x a IH]; simpl; [done|]. by rewrite N.ltb_irrefl.
Qed.

Lemma str_ltb_asym a b : str_ltb a b = true -> str_ltb b a = false.
Proof.
  revert b. induction a as [|x a IH]; intros [|y b]; simpl; try done.
  destruct (N.ltb_spec x y), (N.ltb_spec y x); try done; try lia.
  apply IH.
Qed.

Lemma str_le_trans a b c : str_le a b -> str_le b c -> str_le a c.
Proof.
  unfold str_le. revert b c.
  induction a as [|x a IH]; intros [|y b] [|z c]; simpl; try done.
  destruct (N.ltb_spec y x), (N.ltb_spec x y), (N.ltb_spec z y),
    (N.ltb_spec y z), (N.ltb_spec z x), (N.ltb_spec x z);
    try done; try lia.
  apply IH.
Qed.

Lemma str_le_total a b : str_le a b \/ str_le b a.
Proof.
  unfold str_le. destruct (str_ltb b a) eqn:E; [right | by left].
  by apply str_ltb_asym.
Qed.

Section SortedFacts.
Context {A : Type} (key : A -> list N).

Let le (x y : A) : Prop := str_le (key x) (key y).

Lemma insert_sorted_perm x l : Permutation (insert_sorted key x l) (x :: l).
Proof.
  induction l as [|y l IH]; simpl; [done|].
  destruct (str_ltb (key y) (key x)); [|done].
  rewrite IH. apply perm_swap.
Qed.

Lemma sorted_perm l : Permutation (sorted key l) l.
Proof.
  induction l as [|x l IH]; simpl; [done|].
  by rewrite insert_sorted_perm, IH.
Qed.

Lemma insert_sorted_sorted x l :
  StronglySorted le l -> StronglySorted le (insert_sorted key x l).
Proof.
  induction 1 as [|y l Hl IH Hy]; simpl.
  - constructor; [constructor | constructor].
  - destruct (str_ltb (key y) (key x)) eqn:E.
    + constructor; [exact IH|].
      rewrite (insert_sorted_perm x l). constructor; [|exact Hy].
      unfold le, str_le. by apply str_ltb_asym.
    + constructor; [by constructor|]. constructor; [exact E|].
      eapply Forall_impl; [exact Hy|]. intros z Hz.
      by apply (str_le_trans _ (key y)).
Qed.

Lemma sorted_sorted l : StronglySorted le (sorted key l).
Proof.
  induction l as [|x l IH]; simpl; [constructor|].
  by apply insert_sorted_sorted.
Qed.
End SortedFacts.

Lemma get_python_files_loop_filter files globbed :
  get_python_files_loop files globbed =
  files ++ List.filter
             (fun f => bool_decide (name f <> u "Laba3_zvit.py")) globbed.
Proof.
  revert files. induction globbed as [|f r IH]; intros files; simpl.
  - by rewrite app_nil_r.
  - rewrite IH. destruct (decide (name f <> u "Laba3_zvit.py")) as [H|H].
    + rewrite (bool_decide_eq_true_2 _ H). by rewrite <- app_assoc.
    + by rewrite (bool_decide_eq_false_2 _ H).
Qed.

Lemma get_python_files_perm w :
  Permutation (get_python_files w)
    (List.filter (fun f => bool_decide (name f <> u "Laba3_zvit.py"))
                 (glob_py w)).
Proof.
  unfold get_python_files. rewrite sorted_perm.
  by rewrite get_python_files_loop_filter.
Qed.

Lemma get_python_files_In w f :
  In f (get_python_files w) <->
  In f (glob_py w) /\ name f <> u "Laba3_zvit.py".
Proof.
  split.
  - intros H. apply (Permutation_in _ (get_python_files_perm w)) in H.
    apply List.filter_In in H as [H1 H2].
    by apply bool_decide_eq_true in H2.
  - intros [H1 H2].
    apply (Permutation_in _ (Permutation_sym (get_python_files_perm w))).
    apply List.filter_In. split; [done | by apply bool_decide_eq_true].
Qed.

Lemma glob_py_In w f :
  In f (glob_py w) <->
  exists n, f = in_dir w n /\ In n (listdir w) /\ endswith n (u ".py") = true.
Proof.
  unfold glob_py. rewrite List.in_map_iff. split.
  - intros [n [<- H]]. apply List.filter_In in H. by exists n.
  - intros [n [-> H]]. exists n. split; [done | by apply List.filter_In].
Qed.

Lemma get_python_files_parent w f :
  In f (get_python_files w) -> parent f = CURRENT_DIR w.
Proof.
  intros H. apply get_python_files_In in H as [H _].
  apply glob_py_In in H as [n [-> _]]. done.
Qed.

(** The discovered files are told apart by their names. *)
Lemma get_python_files_name_inj w f g :
  In f (get_python_files w) -> In g (get_python_files w) ->
  name f = name g -> f = g.
Proof.
  intros Hf Hg E.
  apply get_python_files_parent in Hf, Hg.
  destruct f, g; simpl in *; congruence.
Qed.

(** ** The coordinator loop: claims C5, C7, C10 *)

Lemma collect_results_fold w py_files task_results :
  collect_results w py_files task_results =
  Return (task_results_of w py_files task_results).
Proof.
  revert task_results.
  induction py_files as [|f r IH]; intros d; simpl; [done|].
  rewrite capture_output_eq. unfold recorded, outcome. simpl.
  destruct (subprocess_run _ _ _ _) as [cp|e]; simpl.
  - destruct (returncode cp =? 0)%Z; simpl; apply IH.
  - apply IH.
Qed.

Lemma task_results_of_app w l1 l2 d :
  task_results_of w (l1 ++ l2) d =
  task_results_of w l2 (task_results_of w l1 d).
Proof. apply fold_left_app. Qed.

Lemma task_results_insert_out w after k v d :
  ~ In k (List.map name after) ->
  task_results_of w after (<[k := v]> d) =
  <[k := v]> (task_results_of w after d).
Proof.
  revert d. induction after as [|f r IH]; intros d H; simpl in *; [done|].
  rewrite <- IH by tauto.
  rewrite (insert_insert_ne d k) by (intros E; apply H; by left).
  done.
Qed.

Lemma task_results_lookup_out w py_files k d :
  ~ In k (List.map name py_files) ->
  task_results_of w py_files d !! k = d !! k.
Proof.
  revert d. induction py_files as [|f r IH]; intros d H; simpl in *; [done|].
  rewrite IH by tauto. apply lookup_insert_ne. tauto.
Qed.

Lemma task_results_lookup_in w py_files f d :
  (forall g h, In g py_files -> In h py_files -> name g = name h -> g = h) ->
  In f py_files ->
  task_results_of w py_files d !! name f = Some (recorded w f).
Proof.
  revert d. induction py_files as [|x r IH]; intros d Hinj Hf; [done|].
  simpl. destruct (in_dec Path_eq_dec f r) as [Hr|Hr].
  - apply IH; [|done]. intros g h Hg Hh. apply Hinj; by right.
  - destruct Hf as [->|Hf]; [|done].
    rewrite task_results_lookup_out; [apply lookup_insert_eq|].
    rewrite List.in_map_iff. intros [g [E Hg]]. apply Hr.
    replace f with g; [done|]. apply Hinj; [by right | by left | done].
Qed.

Lemma task_results_values (P : list N -> Prop) w py_files d :
  (forall f, P (recorded w f)) ->
  (forall k s, d !! k = Some s -> P s) ->
  forall k s, task_results_of w py_files d !! k = Some s -> P s.
Proof.
  intros HP. revert d.
  induction py_files as [|f r IH]; intros d Hd k s; simpl; [apply Hd|].
  apply IH. intros k' s'. rewrite lookup_insert_Some.
  intros [[_ <-]|[_ H]]; [apply HP | by apply (Hd k')].
Qed.

Lemma task_results_keys w py_files d k :
  is_Some (task_results_of w py_files d !! k) ->
  In k (List.map name py_files) \/ is_Some (d !! k).
Proof.
  revert d. induction py_files as [|f r IH]; intros d; simpl; [by right|].
  intros H. apply IH in H as [H|H]; [left; by right|].
  rewrite lookup_insert_is_Some in H.
  destruct H as [H|[_ H]]; [left; by left | by right].
Qed.

Lemma no_output_nonempty : no_output <> [].
Proof. vm_compute. discriminate. Qed.

Lemma recorded_nonempty w f : recorded w f <> [].
Proof.
  unfold recorded. destruct (outcome w f) as [cp|e];
    [|apply no_output_nonempty].
  destruct (returncode cp =? 0)%Z; [|apply no_output_nonempty].
  destruct (sanitize_output (strip (stdout cp))) eqn:E;
    [apply no_output_nonempty | done].
Qed.

(** An empty text, or one whose lines all have a marker, sanitizes to
    the empty text. *)
Lemma sanitize_output_all_discarded t :
  t = [] \/ forallb has_marker (splitlines t) = true ->
  sanitize_output t = [].
Proof.
  intros [->|H]; [done|].
  rewrite sanitize_output_strip. unfold kept_lines.
  replace (List.filter _ (splitlines t)) with (@nil (list N)); [done|].
  symmetry. rewrite forallb_forall in H.
  induction (splitlines t) as [|l ls IH]; simpl; [done|].
  rewrite (H l) by (by left). simpl. apply IH. intros x Hx. apply H.
  by right.
Qed.

Lemma recorded_cases w f :
  recorded w f = no_output \/
  exists cp, outcome w f = Return cp /\ returncode cp = 0%Z /\
             recorded w f = sanitize_output (strip (stdout cp)).
Proof.
  unfold recorded. destruct (outcome w f) as [cp|e]; [|by left].
  destruct (returncode cp =? 0)%Z eqn:E; [|by left].
  destruct (sanitize_output (strip (stdout cp))) eqn:S; [by left|].
  right. exists cp. rewrite S. split; [done|]. split; [lia | done].
Qed.

Lemma recorded_failed w f : failed w f -> recorded w f = no_output.
Proof.
  unfold failed, recorded. destruct (outcome w f) as [cp|e]; [|done].
  intros H. destruct (Z.eqb_spec (returncode cp) 0); done.
Qed.






(** ** The text of a run and the calls on the document *)

Lemma bind_ext {A B} (m : result A) (f g : A -> result B) :
  (forall a, f a = g a) -> m ≫= f = m ≫= g.
Proof. intros H. destruct m; simpl; [apply H | done]. Qed.

Lemma surrogate_not_xml c : is_surrogate c = true -> xml_char c = false.
Proof.
  unfold xml_char. intros H. rewrite H. simpl.
  unfold is_surrogate in H. apply andb_true_iff in H as [H _].
  apply N.leb_le in H. destruct (N.ltb_spec c 128); [lia | done].
Qed.

Lemma first_surrogates_Some pos s start run :
  first_surrogates pos s = Some (start, run) -> xml_text s = false.
Proof.
  revert pos. induction s as [|c s IH]; intros pos; simpl; [done|].
  destruct (is_surrogate c) eqn:E.
  - intros _. by rewrite (surrogate_not_xml c E).
  - intros H. rewrite (IH _ H). apply andb_false_r.
Qed.

Lemma first_surrogates_None pos s :
  xml_text s = true -> first_surrogates pos s = None.
Proof.
  intros H. destruct (first_surrogates pos s) as [[start run]|] eqn:E; [|done].
  apply first_surrogates_Some in E. congruence.
Qed.

Lemma lxml_utf8_cases s :
  if xml_text s then lxml_utf8 s = Return ()
  else exists e, lxml_utf8 s = Raise e /\ docx_error e.
Proof.
  unfold lxml_utf8. destruct (xml_text s) eqn:E.
  - rewrite (first_surrogates_None 0 s E). unfold xml_text in E. by rewrite E.
  - destruct (first_surrogates 0 s) as [[start run]|].
    + eexists. split; [done|]. by right.
    + unfold xml_text in E. rewrite E. eexists. split; [done|]. by left.
Qed.

Lemma flush_run_cases bfr :
  if xml_text bfr then flush_run bfr = Return ()
  else exists e, flush_run bfr = Raise e /\ docx_error e.
Proof.
  destruct bfr as [|c bfr]; [done|]. apply (lxml_utf8_cases (c :: bfr)).
Qed.

Lemma run_break_xml c : is_run_break c = true -> xml_char c = true.
Proof.
  unfold is_run_break, xml_char. rewrite !orb_true_iff, !N.eqb_eq.
  intros [[->| ->]| ->]; done.
Qed.

Lemma xml_text_app a b : xml_text (a ++ b) = xml_text a && xml_text b.
Proof. apply forallb_app. Qed.

Lemma append_to_run_cases bfr text :
  if xml_text bfr && xml_text text then append_to_run bfr text = Return ()
  else exists e, append_to_run bfr text = Raise e /\ docx_error e.
Proof.
  revert bfr. induction text as [|c text IH]; intros bfr.
  - cbn [append_to_run]. change (xml_text []) with true.
    rewrite andb_true_r. apply flush_run_cases.
  - cbn [append_to_run]. destruct (is_run_break c) eqn:B.
    + change (xml_text (c :: text)) with (xml_char c && xml_text text).
      rewrite (run_break_xml c B). cbn [andb].
      pose proof (flush_run_cases bfr) as F. specialize (IH []).
      change (xml_text []) with true in IH. cbn [andb] in IH.
      destruct (xml_text bfr).
      * rewrite F. exact IH.
      * destruct F as [e [-> He]]. by exists e.
    + specialize (IH (bfr ++ [c])). rewrite xml_text_app in IH.
      change (xml_text [c]) with (xml_char c && true) in IH.
      change (xml_text (c :: text)) with (xml_char c && xml_text text).
      rewrite andb_true_r, <- andb_assoc in IH. exact IH.
Qed.

Lemma set_run_text_cases text :
  if xml_text text then set_run_text text = Return ()
  else exists e, set_run_text text = Raise e /\ docx_error e.
Proof. apply (append_to_run_cases [] text). Qed.

Lemma set_run_text_Return text :
  set_run_text text = Return () <-> xml_text text = true.
Proof.
  pose proof (set_run_text_cases text) as H.
  destruct (xml_text text); [done|].
  destruct H as [e [-> _]]. done.
Qed.

Lemma add_block_cases doc b :
  if block_ok b then add_block doc b = Return (doc ++ [b])
  else exists e, add_block doc b = Raise e /\ docx_error e.
Proof.
  destruct b as [text level|text|text|]; cbn [add_block block_ok]; [| | |done].
  - unfold add_heading. destruct (Nat.ltb_spec 9 level) as [L|L].
    + replace (level <=? 9)%nat with false
        by (symmetry; apply Nat.leb_gt; lia).
      eexists. split; [done|]. by left.
    + replace (level <=? 9)%nat with true by (symmetry; apply Nat.leb_le; lia).
      cbn [andb]. pose proof (set_run_text_cases text) as H.
      destruct (xml_text text); [by rewrite H|].
      destruct H as [e [-> He]]. by exists e.
  - unfold add_paragraph. pose proof (set_run_text_cases text) as H.
    destruct (xml_text text); [by rewrite H|].
    destruct H as [e [-> He]]. by exists e.
  - unfold add_list_bullet. pose proof (set_run_text_cases text) as H.
    destruct (xml_text text); [by rewrite H|].
    destruct H as [e [-> He]]. by exists e.
Qed.

(** The exception of a call does not depend on the document. *)
Lemma add_block_Raise doc doc' b e :
  add_block doc b = Raise e -> add_block doc' b = Raise e.
Proof.
  destruct b as [text level|text|text|]; cbn [add_block]; [| | |done].
  - unfold add_heading. destruct (9 <? level)%nat; [done|].
    by destruct (set_run_text text).
  - unfold add_paragraph. by destruct (set_run_text text).
  - unfold add_list_bullet. by destruct (set_run_text text).
Qed.

Lemma add_blocks_app doc a b :
  add_blocks doc (a ++ b) = doc' ← add_blocks doc a; add_blocks doc' b.
Proof.
  revert doc. induction a as [|x a IH]; intros doc; [done|].
  cbn [add_blocks app]. destruct (add_block doc x) as [doc'|e]; [|done].
  apply IH.
Qed.

Lemma add_blocks_cases doc bs :
  if blocks_ok bs then add_blocks doc bs = Return (doc ++ bs)
  else exists e, add_blocks doc bs = Raise e /\ docx_error e.
Proof.
  revert doc. induction bs as [|b bs IH]; intros doc.
  - simpl. by rewrite app_nil_r.
  - cbn [add_blocks blocks_ok forallb].
    pose proof (add_block_cases doc b) as H.
    destruct (block_ok b).
    + rewrite H. cbn [andb mbind result_bind]. specialize (IH (doc ++ [b])).
      fold (blocks_ok bs). rewrite <- app_assoc in IH. exact IH.
    + destruct H as [e [-> He]]. by exists e.
Qed.

Lemma add_blocks_Return doc bs doc' :
  add_blocks doc bs = Return doc' <->
  blocks_ok bs = true /\ doc' = doc ++ bs.
Proof.
  pose proof (add_blocks_cases doc bs) as H. destruct (blocks_ok bs).
  - rewrite H. split; [intros E; by injection E as <- | by intros [_ ->]].
  - destruct H as [e [-> _]]. split; [done | by intros [? _]].
Qed.

Lemma add_blocks_Raise doc doc' bs e :
  add_blocks doc bs = Raise e -> add_blocks doc' bs = Raise e.
Proof.
  revert doc doc'. induction bs as [|b bs IH]; intros doc doc'; [done|].
  cbn [add_blocks].
  pose proof (add_block_cases doc b) as H.
  pose proof (add_block_cases doc' b) as H'.
  destruct (block_ok b).
  - rewrite H, H'. cbn [mbind result_bind]. apply IH.
  - destruct (add_block doc b) as [?|e0] eqn:E.
    + by destruct H as [? [? _]].
    + rewrite (add_block_Raise doc doc' b e0 E). done.
Qed.

Lemma add_blocks_error doc bs e :
  add_blocks doc bs = Raise e -> docx_error e /\ blocks_ok bs = false.
Proof.
  pose proof (add_blocks_cases doc bs) as H. destruct (blocks_ok bs).
  - by rewrite H.
  - destruct H as [e' [-> He]]. intros E. by injection E as <-.
Qed.

Lemma blocks_ok_app a b : blocks_ok (a ++ b) = blocks_ok a && blocks_ok b.
Proof. apply forallb_app. Qed.

(** ** The parts of the report as lists of blocks *)

Lemma add_code_lines_eq doc lines :
  add_code_lines doc lines = add_blocks doc (List.map code_paragraph lines).
Proof.
  revert doc. induction lines as [|l r IH]; intros doc; [done|].
  cbn [add_code_lines List.map add_blocks add_block code_paragraph].
  apply bind_ext. intros doc'. apply IH.
Qed.

Lemma add_formatted_code_eq doc code_text (n : nat) :
  add_formatted_code doc code_text (Z.of_nat n) =
  add_blocks doc (listing_blocks code_text n).
Proof.
  unfold add_formatted_code, listing_blocks, slice_to, omitted_notice.
  cbv zeta. rewrite add_blocks_app, add_code_lines_eq.
  destruct (Z.ltb_spec (Z.of_nat n) 0); [lia|]. rewrite Nat2Z.id.
  apply bind_ext. intros doc'.
  destruct (Nat.ltb_spec n (length (split_chr LF code_text)));
    destruct (Z.gtb_spec (Z.of_nat (length (split_chr LF code_text)))
                (Z.of_nat n)); try lia; [|done].
  cbn [add_blocks add_block]. by destruct (add_paragraph doc' _).
Qed.

Lemma add_result_lines_eq doc lines :
  add_result_lines doc lines = add_blocks doc (List.map Paragraph lines).
Proof.
  revert doc. induction lines as [|l r IH]; intros doc; [done|].
  cbn [add_result_lines List.map add_blocks add_block].
  apply bind_ext. intros doc'. apply IH.
Qed.

Lemma add_result_eq doc output :
  add_result doc output = add_blocks doc (result_blocks output).
Proof.
  destruct output as [s|]; cbn [add_result result_blocks].
  - apply add_result_lines_eq.
  - cbn [add_blocks add_block]. by destruct (add_paragraph doc _).
Qed.

Lemma read_file_content_eq w f :
  read_file_content w f = Return (source_text w f).
Proof.
  unfold read_file_content, source_text.
  by destruct (open_read w f) as [text|e].
Qed.

Ltac bind_step := apply bind_ext; intros ?.

Lemma title_page_eq w doc :
  title_page w doc = add_blocks doc (title_blocks w).
Proof.
  unfold title_page, title_blocks. cbn [add_blocks add_block].
  repeat bind_step. done.
Qed.

Lemma toc_loop_eq i py_files doc :
  toc_loop i py_files doc =
  add_blocks doc (List.map ListBullet (toc_entries i py_files)).
Proof.
  revert i doc. induction py_files as [|f r IH]; intros i doc; [done|].
  cbn [toc_loop toc_entries]. unfold section_heading.
  destruct (TASK_DESCRIPTIONS !! name f) as [task_info|].
  - cbn [List.map add_blocks add_block]. bind_step. apply IH.
  - cbn [mbind result_bind]. apply IH.
Qed.

Lemma task_section_eq w task_results n_files task_num f doc :
  task_section w task_results n_files task_num f doc =
  add_blocks doc (section_of w task_results n_files task_num f).
Proof.
  unfold task_section, section_of, section_before_code, section_after_code,
    section_heading, overview_of.
  cbv zeta. cbn [app add_blocks add_block].
  destruct (TASK_DESCRIPTIONS !! name f) as [task_info|];
    (destruct (add_heading doc _ 1) as [doc1|e]; [|done]);
    cbn [mbind result_bind];
    do 4 bind_step;
    rewrite read_file_content_eq; cbn [mbind result_bind];
    change 80%Z with (Z.of_nat 80);
    rewrite add_formatted_code_eq, add_blocks_app; bind_step;
    cbn [add_blocks add_block]; do 2 bind_step;
    rewrite add_result_eq, add_blocks_app; bind_step;
    cbn [app add_blocks add_block]; do 3 bind_step;
    by destruct (task_num <? n_files)%nat.
Qed.

Lemma sections_loop_eq w task_results n_files task_num py_files doc :
  sections_loop w task_results n_files task_num py_files doc =
  add_blocks doc (sections_of w task_results n_files task_num py_files).
Proof.
  revert task_num doc.
  induction py_files as [|f r IH]; intros task_num doc;
    cbn [sections_loop sections_of]; [done|].
  rewrite task_section_eq, add_blocks_app. bind_step. apply IH.
Qed.

Lemma closing_part_eq doc :
  closing_part doc = add_blocks doc closing_blocks.
Proof.
  unfold closing_part, closing_blocks. cbv zeta.
  cbn [add_blocks add_block mbind result_bind].
  repeat bind_step. by destruct (add_paragraph _ q3_answer).
Qed.

Lemma assemble_eq w py_files task_results :
  assemble w py_files task_results =
  add_blocks [] (report_blocks w py_files task_results).
Proof.
  unfold assemble, report_blocks, front_part. cbv zeta.
  rewrite <- !app_assoc.
  rewrite title_page_eq, add_blocks_app. bind_step.
  cbn [app add_blocks add_block]. bind_step.
  rewrite toc_loop_eq, add_blocks_app. bind_step.
  cbn [app add_blocks add_block mbind result_bind]. do 3 bind_step.
  rewrite sections_loop_eq, add_blocks_app. bind_step.
  apply closing_part_eq.
Qed.

Lemma assemble_Return w py_files task_results doc :
  assemble w py_files task_results = Return doc <->
  blocks_ok (report_blocks w py_files task_results) = true
  /\ doc = report_blocks w py_files task_results.
Proof. rewrite assemble_eq. apply (add_blocks_Return []). Qed.

(** ** The fixed texts of the report are accepted *)

Lemma xml_text_string_of_uint d :
  xml_text (List.map (fun b => N_of_ascii (ascii_of_byte b))
              (list_byte_of_string (NilEmpty.string_of_uint d)))
  = true.
Proof. induction d; simpl; try done. Qed.

Lemma xml_text_str_of_Z z : xml_text (str_of_Z z) = true.
Proof.
  unfold str_of_Z, NilZero.string_of_int.
  destruct (Z.to_int z) as [d|d]; unfold NilZero.string_of_uint.
  - destruct d; try done; apply (xml_text_string_of_uint (_ d)).
  - destruct d; try done; simpl; apply xml_text_string_of_uint.
Qed.

Ltac fixed_texts :=
  repeat match goal with
  | |- context [xml_text (u ?s)] =>
      replace (xml_text (u s)) with true by (vm_compute; reflexivity)
  | |- context [xml_text []] => change (xml_text []) with true
  end.

Lemma table_texts_ok n task_info :
  TASK_DESCRIPTIONS !! n = Some task_info ->
  xml_text (title task_info) = true
  /\ xml_text (description task_info) = true
  /\ xml_text (topic task_info) = true.
Proof.
  assert (H : map_Forall
                (fun _ ti => xml_text (title ti) && xml_text (description ti)
                             && xml_text (topic ti) = true)
                TASK_DESCRIPTIONS)
    by (apply (bool_decide_unpack _); by vm_compute).
  intros E. specialize (H n task_info E). rewrite !andb_true_iff in H. tauto.
Qed.

Lemma get_task_conclusions_ok n : xml_text (get_task_conclusions n) = true.
Proof.
  assert (H : map_Forall (fun _ c => xml_text c = true) conclusions)
    by (apply (bool_decide_unpack _); by vm_compute).
  unfold get_task_conclusions. destruct (conclusions !! n) as [c|] eqn:E.
  - apply (H n c E).
  - by vm_compute.
Qed.

Lemma section_heading_ok i f :
  xml_text (section_heading i f) =
  match TASK_DESCRIPTIONS !! name f with
  | Some _ => true
  | None => xml_text (name f)
  end.
Proof.
  unfold section_heading. rewrite !xml_text_app, xml_text_str_of_Z.
  fixed_texts. cbn [andb].
  destruct (TASK_DESCRIPTIONS !! name f) as [task_info|] eqn:E; [|done].
  apply (table_texts_ok _ _ E).
Qed.

Lemma overview_of_ok f : xml_text (overview_of f) = true.
Proof.
  unfold overview_of.
  destruct (TASK_DESCRIPTIONS !! name f) as [task_info|] eqn:E.
  - destruct (table_texts_ok _ _ E) as (_ & D & T).
    rewrite !xml_text_app, D, T. by fixed_texts.
  - by vm_compute.
Qed.

Lemma omitted_notice_ok k : xml_text (omitted_notice k) = true.
Proof.
  unfold omitted_notice. rewrite !xml_text_app, xml_text_str_of_Z.
  by fixed_texts.
Qed.

Lemma blocks_ok_paragraphs (f : list N -> list N) lines :
  blocks_ok (List.map (fun l => Paragraph (f l)) lines) =
  forallb (fun l => xml_text (f l)) lines.
Proof. induction lines as [|l r IH]; simpl; [done|]. by rewrite <- IH. Qed.

Lemma listing_blocks_ok code_text n :
  blocks_ok (listing_blocks code_text n) =
  forallb (fun line => xml_text (code_line line))
    (firstn n (split_chr LF code_text)).
Proof.
  unfold listing_blocks. cbv zeta. rewrite blocks_ok_app.
  unfold code_paragraph. rewrite (blocks_ok_paragraphs code_line).
  destruct (n <? _)%nat; cbn [blocks_ok forallb block_ok];
    rewrite ?omitted_notice_ok; by rewrite andb_true_r.
Qed.

Lemma result_blocks_ok output :
  blocks_ok (result_blocks output) =
  match output with
  | Some s => forallb xml_text (result_lines s)
  | None => true
  end.
Proof.
  destruct output as [s|]; cbn [result_blocks].
  - apply (blocks_ok_paragraphs (fun l => l)).
  - by vm_compute.
Qed.

Lemma section_of_ok w d n i f :
  blocks_ok (section_of w d n i f) = section_texts_ok w d f.
Proof.
  unfold section_of, section_before_code, section_after_code,
    section_texts_ok.
  rewrite !blocks_ok_app, listing_blocks_ok, result_blocks_ok.
  cbn [blocks_ok forallb block_ok Nat.leb].
  rewrite section_heading_ok, overview_of_ok, get_task_conclusions_ok.
  fixed_texts. cbn [andb]. rewrite !andb_true_r.
  replace (blocks_ok (if (i <? n)%nat then [PageBreak] else []))
    with true by (by destruct (i <? n)%nat).
  by rewrite !andb_true_r, andb_assoc.
Qed.

Lemma sections_of_ok w d n i py_files :
  blocks_ok (sections_of w d n i py_files) =
  forallb (section_texts_ok w d) py_files.
Proof.
  revert i. induction py_files as [|f r IH]; intros i; [done|].
  cbn [sections_of forallb]. by rewrite blocks_ok_app, section_of_ok, IH.
Qed.

Lemma toc_entries_ok i py_files :
  blocks_ok (List.map ListBullet (toc_entries i py_files)) = true.
Proof.
  revert i. induction py_files as [|f r IH]; intros i; [done|].
  cbn [toc_entries].
  destruct (TASK_DESCRIPTIONS !! name f) as [task_info|] eqn:E; [|apply IH].
  cbn [List.map blocks_ok forallb block_ok].
  rewrite section_heading_ok, E. apply IH.
Qed.

Lemma title_blocks_ok w : blocks_ok (title_blocks w) = xml_text (now_dmY w).
Proof.
  unfold title_blocks. cbn [blocks_ok forallb block_ok Nat.leb].
  rewrite xml_text_app. fixed_texts. cbn [andb]. by rewrite andb_true_r.
Qed.

Lemma front_part_ok w py_files :
  blocks_ok (front_part w py_files) = xml_text (now_dmY w).
Proof.
  unfold front_part.
  rewrite !blocks_ok_app, title_blocks_ok, toc_entries_ok.
  replace (blocks_ok [Heading (u "ЗМІСТ") 1]) with true by (by vm_compute).
  replace (blocks_ok [PageBreak; Heading (u "1. ТЕОРЕТИЧНІ ВІДОМОСТІ") 1;
                      Paragraph theory_text; PageBreak;
                      Heading (u "2. РЕЗУЛЬТАТИ ВИКОНАННЯ ЗАВДАНЬ") 1])
    with true by (by vm_compute).
  by rewrite !andb_true_r.
Qed.

Lemma closing_blocks_ok : blocks_ok closing_blocks = true.
Proof. by vm_compute. Qed.

Lemma report_blocks_ok w py_files d :
  blocks_ok (report_blocks w py_files d) =
  xml_text (now_dmY w) && forallb (section_texts_ok w d) py_files.
Proof.
  unfold report_blocks.
  rewrite !blocks_ok_app, front_part_ok, sections_of_ok, closing_blocks_ok.
  by rewrite andb_true_r.
Qed.

(** ** The listing of a source: claim C8 *)

Lemma code_line_ok line : xml_text line = true -> xml_text (code_line line) = true.
Proof. unfold code_line. by destruct (strip line). Qed.

(** The lines of a text that is accepted are accepted. *)
Lemma split_chr_ok sep s :
  xml_text s = true -> forallb xml_text (split_chr sep s) = true.
Proof.
  induction s as [|c s IH]; [done|].
  change (xml_text (c :: s)) with (xml_char c && xml_text s).
  rewrite andb_true_iff. intros [Hc Hs]. specialize (IH Hs).
  cbn [split_chr]. destruct (c =? sep); [done|].
  destruct (split_chr sep s) as [|l ls]; cbn [forallb] in *.
  - change (xml_text [c]) with (xml_char c && true). by rewrite Hc.
  - change (xml_text (c :: l)) with (xml_char c && xml_text l).
    by rewrite Hc.
Qed.

Lemma In_firstn {A} n (l : list A) x : In x (firstn n l) -> In x l.
Proof.
  revert n. induction l as [|y l IH]; intros [|n]; simpl; try done.
  intros [->|H]; [by left | right; by apply (IH n)].
Qed.

Lemma listing_of_xml_text code_text n :
  xml_text code_text = true -> blocks_ok (listing_blocks code_text n) = true.
Proof.
  intros H. rewrite listing_blocks_ok. apply forallb_forall. intros l Hl.
  apply code_line_ok. apply In_firstn in Hl.
  pose proof (split_chr_ok LF code_text H) as F.
  rewrite forallb_forall in F. by apply F.
Qed.

(** C8: a source of 80 lines, each ended by a line feed, is listed in
    full, and yet the listing ends with the notice that one line is left:
    [code_text.split('\n')] counts the empty text after the last line
    feed as a line.  A source of 100 such lines is told to have 21 lines
    left when 20 are.  And a source with a control character has no
    listing at all: the paragraph raises. *)
Theorem add_formatted_code_notice_off_by_one :
  length (splitlines (source_of_lines 80)) = 80%nat
  /\ add_formatted_code [] (source_of_lines 80) 80 =
     Return (repeat (Paragraph (u "pass")) 80
             ++ [Paragraph (u "... (залишилось 1 рядків)")])
  /\ length (splitlines (source_of_lines 100)) = 100%nat
  /\ add_formatted_code [] (source_of_lines 100) 80 =
     Return (repeat (Paragraph (u "pass")) 80
             ++ [Paragraph (u "... (залишилось 21 рядків)")])
  /\ add_formatted_code [] (u "print('" ++ [27] ++ u "[1mdone')") 80 =
     Raise not_xml_compatible.
Proof. repeat split; vm_compute; reflexivity. Qed.

(** ** The sections of the report: claims C6 and C9 *)

Lemma headings_app level d1 d2 :
  headings level (d1 ++ d2) = headings level d1 ++ headings level d2.
Proof. apply flat_map_app. Qed.

Lemma bullets_app d1 d2 : bullets (d1 ++ d2) = bullets d1 ++ bullets d2.
Proof. apply flat_map_app. Qed.

Lemma page_breaks_app d1 d2 :
  page_breaks (d1 ++ d2) = (page_breaks d1 + page_breaks d2)%nat.
Proof. unfold page_breaks. by rewrite List.filter_app, length_app. Qed.

Lemma all_paragraphs_app d1 d2 :
  all_paragraphs d1 -> all_paragraphs d2 -> all_paragraphs (d1 ++ d2).
Proof. apply Forall_app_2. Qed.

Lemma all_paragraphs_map {A} (f : A -> list N) (l : list A) :
  all_paragraphs (List.map (fun x => Paragraph (f x)) l).
Proof. induction l; constructor; done. Qed.

(** Paragraphs are neither headings, nor entries of the table of
    contents, nor page breaks. *)
Lemma all_paragraphs_plain doc :
  all_paragraphs doc ->
  bullets doc = [] /\ page_breaks doc = 0%nat
  /\ forall level, headings level doc = [].
Proof.
  induction 1 as [|b doc Hb _ (IH1 & IH2 & IH3)]; [done|].
  destruct b; try done.
Qed.

Lemma listing_blocks_all_paragraphs code_text n :
  all_paragraphs (listing_blocks code_text n).
Proof.
  unfold listing_blocks. cbv zeta. apply all_paragraphs_app.
  - apply (all_paragraphs_map code_line).
  - destruct (n <? _)%nat; repeat constructor.
Qed.

Lemma result_blocks_all_paragraphs output :
  all_paragraphs (result_blocks output).
Proof.
  destruct output as [s|]; cbn [result_blocks]; [|repeat constructor].
  apply (all_paragraphs_map (fun l => l)).
Qed.

Lemma section_of_counts w d n i f :
  bullets (section_of w d n i f) = []
  /\ page_breaks (section_of w d n i f) = (if (i <? n)%nat then 1 else 0)%nat
  /\ headings 1 (section_of w d n i f) = [section_heading i f]
  /\ headings 2 (section_of w d n i f) = section_subheadings.
Proof.
  unfold section_of, section_after_code, section_before_code.
  destruct (all_paragraphs_plain _
              (listing_blocks_all_paragraphs (source_text w f) 80))
    as (B1 & P1 & H1).
  destruct (all_paragraphs_plain _
              (result_blocks_all_paragraphs (d !! name f)))
    as (B2 & P2 & H2).
  rewrite !bullets_app, !page_breaks_app, !headings_app.
  rewrite B1, B2, P1, P2, !H1, !H2.
  by destruct (i <? n)%nat.
Qed.

Lemma sections_of_counts w d n i py_files :
  bullets (sections_of w d n i py_files) = []
  /\ page_breaks (sections_of w d n i py_files)
     = Nat.min (length py_files) (n - i)
  /\ headings 1 (sections_of w d n i py_files) = section_headings i py_files
  /\ headings 2 (sections_of w d n i py_files)
     = flat_map (fun _ => section_subheadings) py_files.
Proof.
  revert i. induction py_files as [|f r IH]; intros i.
  - done.
  - cbn [sections_of section_headings flat_map length].
    destruct (section_of_counts w d n i f) as (B & P & H1 & H2).
    destruct (IH (S i)) as (B' & P' & H1' & H2').
    rewrite bullets_app, page_breaks_app, !headings_app.
    rewrite B, B', P, P', H1, H1', H2, H2'. repeat split.
    destruct (Nat.ltb_spec i n); lia.
Qed.

Lemma bullets_ListBullet l : bullets (List.map ListBullet l) = l.
Proof. induction l as [|x l IH]; simpl; [done|]. by rewrite IH. Qed.

Lemma front_part_counts w py_files :
  bullets (front_part w py_files) = toc_entries 1 py_files
  /\ page_breaks (front_part w py_files) = 3%nat
  /\ headings 1 (front_part w py_files) =
     [u "ЗМІСТ"; u "1. ТЕОРЕТИЧНІ ВІДОМОСТІ";
      u "2. РЕЗУЛЬТАТИ ВИКОНАННЯ ЗАВДАНЬ"]
  /\ headings 2 (front_part w py_files) = [].
Proof.
  unfold front_part, title_blocks. split; [|split; [|split]].
  - rewrite !bullets_app, bullets_ListBullet. simpl. by rewrite app_nil_r.
  - rewrite !page_breaks_app.
    replace (page_breaks (List.map ListBullet (toc_entries 1 py_files)))
      with 0%nat; [done|].
    unfold page_breaks. by induction (toc_entries 1 py_files).
  - rewrite !headings_app.
    replace (headings 1 (List.map ListBullet (toc_entries 1 py_files)))
      with (@nil (list N)); [done|].
    by induction (toc_entries 1 py_files).
  - rewrite !headings_app.
    replace (headings 2 (List.map ListBullet (toc_entries 1 py_files)))
      with (@nil (list N)); [done|].
    by induction (toc_entries 1 py_files).
Qed.

Lemma closing_blocks_counts :
  bullets closing_blocks = []
  /\ page_breaks closing_blocks = 1%nat
  /\ headings 1 closing_blocks =
     [u "3. ВИСНОВКИ"; u "4. ВІДПОВІДІ НА КОНТРОЛЬНІ ЗАПИТАННЯ"]
  /\ headings 2 closing_blocks =
     [u "4.1 Опис функцій у Python. Рекурсія.";
      u "4.2 Поняття зовнішніх модулів та їх методів.";
      u "4.3 Файли та методи роботи із ними."].
Proof. repeat split. Qed.

Lemma headings_report_blocks w py_files d :
  headings 1 (report_blocks w py_files d) =
  [u "ЗМІСТ"; u "1. ТЕОРЕТИЧНІ ВІДОМОСТІ"; u "2. РЕЗУЛЬТАТИ ВИКОНАННЯ ЗАВДАНЬ"]
  ++ section_headings 1 py_files
  ++ [u "3. ВИСНОВКИ"; u "4. ВІДПОВІДІ НА КОНТРОЛЬНІ ЗАПИТАННЯ"].
Proof.
  unfold report_blocks. rewrite !headings_app.
  rewrite (proj1 (proj2 (proj2 (front_part_counts w py_files)))).
  rewrite (proj1 (proj2 (proj2 (sections_of_counts w d (length py_files) 1
                                  py_files)))).
  by rewrite (proj1 (proj2 (proj2 closing_blocks_counts))).
Qed.

Lemma section_headings_length i py_files :
  length (section_headings i py_files) = length py_files.
Proof.
  revert i. induction py_files as [|f r IH]; intros i; simpl; [done|].
  by rewrite IH.
Qed.

Lemma create_report_eq w :
  create_report w =
  doc ← assemble w (get_python_files w)
          (task_results_of w (get_python_files w) ∅);
  _ ← doc_save w (path_str (report_path w));
  Return (report_path w, doc).
Proof.
  unfold create_report. cbv zeta. by rewrite collect_results_fold.
Qed.

Lemma create_report_Return w p doc :
  create_report w = Return (p, doc) <->
  p = report_path w
  /\ assemble w (get_python_files w)
       (task_results_of w (get_python_files w) ∅) = Return doc
  /\ doc_save w (path_str (report_path w)) = Return ().
Proof.
  rewrite create_report_eq.
  destruct (assemble _ _ _) as [doc'|e]; cbn [mbind result_bind].
  - destruct (doc_save w _) as [[]|e]; cbn [mbind result_bind].
    + split; [intros H; by injection H as <- <- | by intros (-> & [= ->] & _)].
    + split; [done | by intros (_ & _ & ?)].
  - split; [done | by intros (_ & ? & _)].
Qed.

Lemma assemble_returns_iff w py_files d :
  (exists doc, assemble w py_files d = Return doc) <->
  xml_text (now_dmY w) = true
  /\ forall f, In f py_files -> section_texts_ok w d f = true.
Proof.
  rewrite <- forallb_forall, <- andb_true_iff, <- report_blocks_ok.
  split.
  - intros [doc H]. by apply assemble_Return in H as [H _].
  - intros H. eexists. by apply assemble_Return.
Qed.

Lemma endswith_spec s suffix :
  endswith s suffix = true <-> exists stem, s = stem ++ suffix.
Proof.
  induction s as [|c s IH]; simpl.
  - rewrite orb_false_r. destruct (decide ([] = suffix)) as [<-|H].
    + split; [by exists [] | done].
    + split; [done|]. intros [[|? ?] E]; [by destruct H|done].
  - rewrite orb_true_iff, IH. destruct (decide (c :: s = suffix)) as [<-|H].
    + split; [by exists [] | by left].
    + split.
      * intros [?|[stem ->]]; [done | by exists (c :: stem)].
      * intros [[|c' stem] E]; [by destruct H|].
        right. injection E as -> ->. by exists stem.
Qed.

Lemma list_filter_map {A B} (f : A -> B) (p : B -> bool) (l : list A) :
  List.filter p (List.map f l) = List.map f (List.filter (fun x => p (f x)) l).
Proof.
  induction l as [|x l IH]; simpl; [done|].
  destruct (p (f x)); simpl; by rewrite IH.
Qed.

Lemma list_filter_filter {A} (p q : A -> bool) (l : list A) :
  List.filter q (List.filter p l) = List.filter (fun x => p x && q x) l.
Proof.
  induction l as [|x l IH]; simpl; [done|].
  destruct (p x); simpl; [|done]. destruct (q x); by rewrite IH.
Qed.

Lemma get_python_files_names w :
  Permutation (List.map name (get_python_files w))
    (List.filter
       (fun n => endswith n (u ".py") && bool_decide (n <> u "Laba3_zvit.py"))
       (listdir w)).
Proof.
  rewrite (get_python_files_perm w). unfold glob_py.
  rewrite list_filter_map, list_filter_filter, List.map_map. simpl.
  by rewrite List.map_id.
Qed.


Lemma agree_outcome p w w' f :
  agree_except_source p w w' -> outcome w f = outcome w' f.
Proof.
  intros (Hd & Hx & _ & Hrun & _).
  unfold outcome, command, TEST_ARGS, TEST_INPUTS, in_dir.
  by rewrite Hd, Hx, Hrun.
Qed.

Lemma agree_collect_results p w w' py_files d :
  agree_except_source p w w' ->
  collect_results w py_files d = collect_results w' py_files d.
Proof.
  intros H. rewrite !collect_results_fold. f_equal.
  unfold task_results_of. revert d.
  induction py_files as [|f r IH]; intros d; simpl; [done|].
  rewrite IH. unfold recorded. by rewrite (agree_outcome p w w' f H).
Qed.

Lemma agree_get_python_files p w w' :
  agree_except_source p w w' -> get_python_files w = get_python_files w'.
Proof.
  intros (Hd & _ & Hl & _).
  unfold get_python_files, glob_py, in_dir. by rewrite Hd, Hl.
Qed.

(** The section of a file does not depend on what reading another file
    gives. *)
Lemma agree_section_of p w w' d n i f :
  agree_except_source p w w' -> f <> p ->
  section_of w d n i f = section_of w' d n i f.
Proof.
  intros (_ & _ & _ & _ & Hread & _) Hf. unfold section_of, source_text.
  by rewrite (Hread f Hf).
Qed.

Lemma agree_section_texts_ok p w w' d f :
  agree_except_source p w w' -> f <> p ->
  section_texts_ok w d f = section_texts_ok w' d f.
Proof.
  intros (_ & _ & _ & _ & Hread & _) Hf. unfold section_texts_ok, source_text.
  by rewrite (Hread f Hf).
Qed.

(** The section of a file whose source is a text that is accepted has
    the texts of its listing accepted. *)
Lemma section_texts_ok_source w w' d f :
  xml_text (source_text w f) = true ->
  section_texts_ok w' d f = true -> section_texts_ok w d f = true.
Proof.
  unfold section_texts_ok. rewrite !andb_true_iff.
  intros H [[H1 _] H3]. split; [split; [done|]|done].
  rewrite <- listing_blocks_ok. by apply listing_of_xml_text.
Qed.

(** C9: when the source of an exercise cannot be read,
    [read_file_content] does not raise: it returns the text ["Помилка
    читання файлу: "] followed by the message of the error, and the
    calls that write the section of that exercise are those that append
    its blocks with the listing of this text where the listing of the
    source would be.  The files, the results and the calls that write
    the section of every other file are what they are when the source
    can be read, and a report that is assembled is the front part, these
    sections and the closing part.  The unreadable source does not stop
    the assembly: when the message of the error has no character that
    python-docx refuses, the report is assembled whenever it is with the
    source readable. *)
Theorem unreadable_source_is_local w w' p e :
  open_read w p = Raise e ->
  agree_except_source p w w' ->
  read_file_content w p =
    Return (u "Помилка читання файлу: " ++ exn_str e)
  /\ (forall d n i doc,
        task_section w d n i p doc =
        add_blocks doc
          (section_before_code i p
           ++ listing_blocks (u "Помилка читання файлу: " ++ exn_str e) 80
           ++ section_after_code d n i p))
  /\ get_python_files w = get_python_files w'
  /\ (forall py_files d,
        collect_results w py_files d = collect_results w' py_files d)
  /\ (forall d n i f doc, f <> p ->
        task_section w d n i f doc = task_section w' d n i f doc
        /\ task_section w d n i f doc = add_blocks doc (section_of w d n i f)
        /\ section_of w d n i f = section_of w' d n i f)
  /\ (forall py_files d doc,
        assemble w py_files d = Return doc ->
        doc = front_part w py_files
              ++ sections_of w d (length py_files) 1 py_files
              ++ closing_blocks)
  /\ (xml_text (exn_str e) = true ->
      forall py_files d,
        (exists doc', assemble w' py_files d = Return doc') ->
        exists doc, assemble w py_files d = Return doc).
Proof.
  intros Hp Hw.
  assert (S : source_text w p = u "Помилка читання файлу: " ++ exn_str e)
    by (unfold source_text; by rewrite Hp).
  split; [by rewrite read_file_content_eq, S|].
  split; [intros; rewrite task_section_eq; unfold section_of; by rewrite S|].
  split; [by apply (agree_get_python_files p)|].
  split; [intros; by apply (agree_collect_results p)|].
  split; [|split].
  - intros d n i f doc Hf. rewrite !task_section_eq.
    by rewrite (agree_section_of p w w' d n i f Hw Hf).
  - intros py_files d doc H. by apply assemble_Return in H as [_ ->].
  - intros He py_files d. rewrite !assemble_returns_iff.
    destruct Hw as (H1 & H2 & H3 & H4 & Hread & Hdate & H5).
    rewrite Hdate. intros [Hd Hs]. split; [done|]. intros f Hf.
    destruct (decide (f = p)) as [->|Hne].
    + apply (section_texts_ok_source w w'); [|by apply Hs].
      rewrite S, xml_text_app, He. by fixed_texts.
    + rewrite (agree_section_texts_ok p w w');
        [by apply Hs | by repeat split | done].
Qed.

Lemma unreadable_source_is_local_witness :
  read_file_content world_three (in_dir world_three (u "c.py")) =
    Return (u "Помилка читання файлу: Permission denied")
  /\ (forall d n i doc,
        task_section world_three d n i (in_dir world_three (u "c.py")) doc =
        add_blocks doc
          (section_before_code i (in_dir world_three (u "c.py"))
           ++ listing_blocks (u "Помилка читання файлу: Permission denied") 80
           ++ section_after_code d n i (in_dir world_three (u "c.py"))))
  /\ get_python_files world_three = get_python_files world_three_readable
  /\ (forall py_files d,
        collect_results world_three py_files d =
        collect_results world_three_readable py_files d)
  /\ (forall d n i f doc, f <> in_dir world_three (u "c.py") ->
        task_section world_three d n i f doc =
        task_section world_three_readable d n i f doc
        /\ task_section world_three d n i f doc =
           add_blocks doc (section_of world_three d n i f)
        /\ section_of world_three d n i f =
           section_of world_three_readable d n i f)
  /\ (forall py_files d doc,
        assemble world_three py_files d = Return doc ->
        doc = front_part world_three py_files
              ++ sections_of world_three d (length py_files) 1 py_files
              ++ closing_blocks)
  /\ (xml_text (u "Permission denied") = true ->
      forall py_files d,
        (exists doc', assemble world_three_readable py_files d = Return doc') ->
        exists doc, assemble world_three py_files d = Return doc).
Proof.
  apply (unreadable_source_is_local world_three world_three_readable
           (in_dir world_three (u "c.py"))
           {| exn_cls := OSError; exn_str := u "Permission denied" |}).
  - reflexivity.
  - repeat split; try reflexivity.
    intros q Hq. simpl. by destruct (decide _).
Defined.

(** ** The report of the example directory *)



(** * Further properties of the script *)

(** ** [split] and [join] *)

Lemma split_chr_nonempty sep s : split_chr sep s <> [].
Proof.
  destruct s as [|c s]; simpl; [done|].
  destruct (c =? sep); [done|]. by destruct (split_chr sep s).
Qed.

Lemma join_split_chr sep s : join [sep] (split_chr sep s) = s.
Proof.
  induction s as [|c s IH]; simpl; [done|].
  destruct (N.eqb_spec c sep) as [->|Hc].
  - destruct (split_chr sep s) as [|l ls] eqn:E.
    { by apply split_chr_nonempty in E. }
    rewrite join_cons2. simpl. by rewrite <- IH.
  - destruct (split_chr sep s) as [|l ls] eqn:E.
    { by apply split_chr_nonempty in E. }
    destruct ls; simpl in *; by rewrite <- IH.
Qed.

Lemma split_chr_pieces sep s :
  Forall (fun p => ~ In sep p) (split_chr sep s).
Proof.
  induction s as [|c s IH]; simpl.
  - constructor; [by intros [] | constructor].
  - destruct (N.eqb_spec c sep) as [->|Hc].
    + constructor; [by intros [] | done].
    + destruct (split_chr sep s) as [|l ls].
      * constructor; [|done]. intros [H|[]]. done.
      * inversion IH as [|? ? Hl Hls]; subst.
        constructor; [|done]. intros [H|H]; [done | by apply Hl].
Qed.

Lemma split_chr_length sep s :
  length (split_chr sep s) = S (count_occ N.eq_dec s sep).
Proof.
  induction s as [|c s IH]; simpl; [done|].
  destruct (N.eqb_spec c sep) as [->|Hc].
  - simpl. rewrite IH. by destruct (N.eq_dec sep sep).
  - destruct (N.eq_dec c sep); [done|].
    destruct (split_chr sep s) as [|l ls]; simpl in *; [discriminate | done].
Qed.

Lemma split_chr_piece_app sep l rest :
  ~ In sep l -> split_chr sep (l ++ sep :: rest) = l :: split_chr sep rest.
Proof.
  induction l as [|c l IH]; simpl; intros H.
  - by rewrite N.eqb_refl.
  - destruct (N.eqb_spec c sep) as [->|Hc]; [by destruct H; left|].
    rewrite IH by tauto. done.
Qed.

Lemma split_chr_piece sep l : ~ In sep l -> split_chr sep l = [l].
Proof.
  induction l as [|c l IH]; simpl; intros H; [done|].
  destruct (N.eqb_spec c sep) as [->|Hc]; [by destruct H; left|].
  rewrite IH by tauto. done.
Qed.

Lemma split_chr_join sep ls :
  ls <> [] -> Forall (fun p => ~ In sep p) ls ->
  split_chr sep (join [sep] ls) = ls.
Proof.
  induction ls as [|l [|l2 r] IH]; intros Hne HF; [done| |].
  - inversion HF; subst. by apply split_chr_piece.
  - inversion HF; subst. rewrite join_cons2.
    change ([sep] ++ join [sep] (l2 :: r)) with (sep :: join [sep] (l2 :: r)).
    rewrite split_chr_piece_app by done. f_equal. by apply IH.
Qed.

(** X1: [sep.join(s.split(sep))] is [s] for every text; the pieces of
    [s.split(sep)] have no separator and are one more than the separators
    of [s] (so there is always at least one piece); and [split] gives back
    the pieces of a [join] when there is at least one piece and no piece
    has the separator. *)
Theorem split_join_round_trip sep s :
  join [sep] (split_chr sep s) = s
  /\ Forall (fun p => ~ In sep p) (split_chr sep s)
  /\ length (split_chr sep s) = S (count_occ N.eq_dec s sep)
  /\ (forall ls, ls <> [] -> Forall (fun p => ~ In sep p) ls ->
        split_chr sep (join [sep] ls) = ls).
Proof.
  split; [apply join_split_chr|]. split; [apply split_chr_pieces|].
  split; [apply split_chr_length|]. intros ls. apply split_chr_join.
Qed.

Lemma split_join_round_trip_witness :
  split_chr LF (join [LF] [u "a"; []; u "b"]) = [u "a"; []; u "b"].
Proof.
  apply (proj2 (proj2 (proj2 (split_join_round_trip LF [])))).
  - discriminate.
  - repeat constructor; vm_compute; intuition discriminate.
Defined.

(** ** What the sanitizer returns *)

Lemma startswith_app_lf m l rest :
  lf_free m = true -> startswith m (l ++ LF :: rest) = startswith m l.
Proof.
  revert m. induction l as [|c l IH]; intros [|a m] H; simpl in *; try done.
  - apply andb_true_iff in H as [H _]. apply negb_true_iff in H.
    by rewrite H.
  - apply andb_true_iff in H as [_ H]. by rewrite (IH m H).
Qed.

Lemma contains_app_lf m l rest :
  lf_free m = true -> m <> [] ->
  contains m (l ++ LF :: rest) = contains m l || contains m rest.
Proof.
  intros H Hne. induction l as [|c l IH].
  - destruct m as [|a m]; [done|]. simpl in *.
    apply andb_true_iff in H as [H _]. apply negb_true_iff in H.
    by rewrite H.
  - change (contains m ((c :: l) ++ LF :: rest))
      with (startswith m ((c :: l) ++ LF :: rest)
            || contains m (l ++ LF :: rest)).
    rewrite (startswith_app_lf m (c :: l) rest H), IH. simpl.
    by rewrite orb_assoc.
Qed.

Lemma contains_join m ls :
  lf_free m = true -> m <> [] ->
  contains m (join [LF] ls) = existsb (contains m) ls.
Proof.
  intros H Hne. induction ls as [|l [|l2 r] IH].
  - destruct m; [done|]. done.
  - simpl. by rewrite orb_false_r.
  - rewrite join_cons2.
    change ([LF] ++ join [LF] (l2 :: r)) with (LF :: join [LF] (l2 :: r)).
    rewrite contains_app_lf, IH by done. done.
Qed.

Lemma markers_lf_free :
  Forall (fun m => lf_free m = true /\ m <> []) markers.
Proof. repeat constructor; discriminate. Qed.

Lemma existsb_orb {A} (f g : A -> bool) (l : list A) :
  existsb (fun x => f x || g x) l = existsb f l || existsb g l.
Proof.
  induction l as [|x l IH]; simpl; [done|]. rewrite IH.
  destruct (f x), (g x), (existsb f l); simpl; by rewrite ?orb_true_r.
Qed.

Lemma existsb_contains_join ms ls :
  Forall (fun m => lf_free m = true /\ m <> []) ms ->
  existsb (fun token => contains token (join [LF] ls)) ms =
  existsb (fun l => existsb (fun token => contains token l) ms) ls.
Proof.
  induction 1 as [|m ms [H1 H2] _ IH]; simpl.
  - by induction ls.
  - rewrite contains_join, IH by done. symmetry. apply existsb_orb.
Qed.

Lemma has_marker_join ls :
  has_marker (join [LF] ls) = existsb has_marker ls.
Proof. apply existsb_contains_join, markers_lf_free. Qed.

Lemma sanitized_lines_no_marker t :
  Forall (fun l => has_marker l = false)
    (rstrip_last (lstrip_first (trim_blank_lines (kept_lines t)))).
Proof.
  apply (Forall_strip_ends (fun l => has_marker l = false));
    [apply hereditary_no_marker|].
  eapply Forall_of_sublist; [apply sublist_drop_trailing_blank|].
  eapply Forall_of_sublist; [apply sublist_drop_leading_blank|].
  apply kept_lines_no_marker.
Qed.

Lemma sanitize_output_no_marker_anywhere t :
  has_marker (sanitize_output t) = false.
Proof.
  pose proof (sanitized_lines_no_marker t) as HF.
  rewrite sanitize_output_join, has_marker_join.
  induction HF as [|l ls Hl _ IH]; simpl; [done|]. by rewrite Hl.
Qed.

(** X2: none of the five markers occurs anywhere in the text that
    [sanitize_output] returns, neither within a line nor across the line
    feeds that join the lines. *)
Theorem sanitize_output_has_no_marker t :
  has_marker (sanitize_output t) = false
  /\ marker_free (sanitize_output t) = true.
Proof.
  pose proof (sanitized_lines_no_marker t) as HF. split.
  - apply sanitize_output_no_marker_anywhere.
  - unfold marker_free. rewrite splitlines_sanitize_output.
    induction HF as [|l ls Hl _ IH]; simpl; [done|]. by rewrite Hl.
Qed.

Lemma only_lf_breaks_join ls :
  Forall (fun l => nobreak l = true) ls ->
  only_lf_breaks (join [LF] ls) = true.
Proof.
  assert (A : forall l, nobreak l = true -> only_lf_breaks l = true).
  { intros l. unfold nobreak, only_lf_breaks. rewrite !forallb_forall.
    intros H c Hc. by rewrite (H c Hc). }
  induction ls as [|l [|l2 r] IH]; intros HF; [done| |].
  - inversion HF; subst. by apply A.
  - inversion HF; subst. rewrite join_cons2.
    unfold only_lf_breaks in *. rewrite !forallb_app, IH by done.
    fold (only_lf_breaks l). by rewrite A.
Qed.

Lemma sanitized_lines_nobreak t :
  Forall (fun l => nobreak l = true)
    (rstrip_last (lstrip_first (trim_blank_lines (kept_lines t)))).
Proof.
  apply Forall_strip_ends; [apply hereditary_nobreak|].
  eapply Forall_of_sublist; [apply sublist_trim_kept|].
  apply splitlines_nobreak.
Qed.

Lemma sanitize_output_stripped t :
  strip (sanitize_output t) = sanitize_output t.
Proof. rewrite sanitize_output_strip. apply strip_idem. Qed.

Lemma sanitize_output_only_lf t :
  only_lf_breaks (sanitize_output t) = true.
Proof.
  rewrite sanitize_output_join. apply only_lf_breaks_join.
  apply sanitized_lines_nobreak.
Qed.

(** X3: the text that [sanitize_output] returns has no white space at
    its two ends, and its only line-break characters are the line feeds
    that join its lines: carriage returns, form feeds and the Unicode
    line separators of the input are gone. *)
Theorem sanitize_output_normal_form t :
  strip (sanitize_output t) = sanitize_output t
  /\ only_lf_breaks (sanitize_output t) = true
  /\ (forall c r, sanitize_output t = c :: r -> isspace c = false)
  /\ (forall r c, sanitize_output t = r ++ [c] -> isspace c = false).
Proof.
  pose proof (sanitize_output_stripped t) as S.
  split; [done|]. split; [|split].
  - apply sanitize_output_only_lf.
  - intros c r E. apply (strip_no_leading_space (sanitize_output t) c r).
    by rewrite S.
  - intros r c E. apply (strip_no_trailing_space (sanitize_output t) r c).
    by rewrite S.
Qed.

Lemma length_join ls : length (join [LF] ls) = pred (lines_size ls).
Proof.
  induction ls as [|l [|l2 r] IH]; [done| |].
  - simpl. lia.
  - rewrite join_cons2, !length_app, IH. simpl. lia.
Qed.

Lemma lines_size_sublist l1 l2 :
  sublist l1 l2 -> (lines_size l1 <= lines_size l2)%nat.
Proof. induction 1; simpl; lia. Qed.

Lemma lines_size_splitlines_upto n s :
  (length s <= n)%nat -> (lines_size (splitlines s) <= S (length s))%nat.
Proof.
  revert s. induction n as [|n IH]; intros [|c s] Hn; simpl in *; try lia.
  destruct (is_linebreak c).
  - pose proof (after_break_length c s) as L.
    specialize (IH (after_break c s)). simpl. lia.
  - specialize (IH s). destruct (splitlines s) as [|l ls] eqn:E.
    + apply splitlines_nil in E as ->. simpl. lia.
    + simpl in *. lia.
Qed.

Lemma length_lstrip_le s : (length (lstrip s) <= length s)%nat.
Proof. apply lstrip_length. Qed.

Lemma length_rstrip_le s : (length (rstrip s) <= length s)%nat.
Proof.
  destruct (rstrip_prefix s) as [b [E _]].
  rewrite E at 2. rewrite length_app. lia.
Qed.

(** X4: [sanitize_output] never returns a longer text than it is given. *)
Theorem sanitize_output_length t :
  (length (sanitize_output t) <= length t)%nat.
Proof.
  rewrite sanitize_output_strip. unfold strip.
  pose proof (length_rstrip_le (lstrip (join [LF] (kept_lines t)))).
  pose proof (length_lstrip_le (join [LF] (kept_lines t))).
  pose proof (length_join (kept_lines t)).
  pose proof (lines_size_sublist _ _
                (sublist_list_filter (fun l => negb (has_marker l))
                   (splitlines t))).
  pose proof (lines_size_splitlines_upto (length t) t (le_n _)).
  unfold kept_lines in *. lia.
Qed.

Lemma strip_nil_blank s : strip s = [] <-> blank s = true.
Proof.
  unfold strip. split.
  - intros H. apply rstrip_nil_blank in H. by rewrite blank_lstrip in H.
  - intros H. apply rstrip_blank. by rewrite blank_lstrip.
Qed.

(** X5: [sanitize_output] returns the empty text exactly when every
    line without a marker has only white space (in particular when there
    is no such line). *)
Theorem sanitize_output_empty_iff t :
  sanitize_output t = [] <-> forallb blank (kept_lines t) = true.
Proof.
  rewrite sanitize_output_strip, strip_nil_blank. by rewrite blank_join.
Qed.

(** ** The two ways the script splits a text into lines *)

Lemma splitlines_cons_nonempty c s : splitlines (c :: s) <> [].
Proof. intros E. by apply splitlines_nil in E. Qed.

(** X6: on a text whose only line breaks are line feeds,
    [text.split('\n')] gives the lines of [text.splitlines()], and one
    more, empty, line when the text is empty or ends with a line feed. *)
Theorem split_vs_splitlines t :
  only_lf_breaks t = true ->
  split_chr LF t =
  splitlines t ++
  (if match t with [] => true | _ => ends_lf t end then [[]] else []).
Proof.
  induction t as [|c t IH]; [done|]. intros H.
  apply andb_true_iff in H as [Hc Ht]. specialize (IH Ht).
  change (split_chr LF (c :: t))
    with (if c =? LF then [] :: split_chr LF t
          else match split_chr LF t with
               | l :: ls => (c :: l) :: ls
               | [] => [[c]]
               end).
  change (splitlines (c :: t))
    with (if is_linebreak c then [] :: splitlines (after_break c t)
          else match splitlines t with
               | l :: ls => (c :: l) :: ls
               | [] => [[c]]
               end).
  destruct (N.eqb_spec c LF) as [->|Hne].
  - change (is_linebreak LF) with true.
    replace (after_break LF t) with t by (by destruct t).
    rewrite IH. destruct t as [|c' t]; [done|]. done.
  - destruct (is_linebreak c) eqn:E.
    { simpl in Hc. discriminate. }
    destruct t as [|c' t]; [simpl; by destruct (N.eqb_spec c LF)|].
    rewrite IH.
    destruct (splitlines (c' :: t)) as [|l ls] eqn:S.
    { by apply splitlines_cons_nonempty in S. }
    done.
Qed.

Lemma split_vs_splitlines_witness :
  split_chr LF (u "a\nb\n") = splitlines (u "a\nb\n") ++ [[]].
Proof. apply (split_vs_splitlines (u "a\nb\n")). reflexivity. Defined.

(** ** The recorded results and their rendering *)

Lemma no_output_clean : clean_result no_output.
Proof. repeat split; vm_compute; congruence. Qed.

Lemma sanitize_output_clean t :
  sanitize_output t <> [] -> clean_result (sanitize_output t).
Proof.
  intros H. split; [done|].
  split; [apply sanitize_output_stripped|].
  split; [apply sanitize_output_only_lf|].
  apply sanitize_output_no_marker_anywhere.
Qed.

Lemma recorded_clean w f : clean_result (recorded w f).
Proof.
  destruct (recorded_cases w f) as [->|[cp [_ [_ E]]]];
    [apply no_output_clean|].
  rewrite E. apply sanitize_output_clean. rewrite <- E.
  apply recorded_nonempty.
Qed.



Lemma In_join_infix sep p ls :
  In p ls -> exists a b, join [sep] ls = a ++ p ++ b.
Proof.
  induction ls as [|l [|l2 r] IH]; [done| |].
  - intros [->|[]]. exists [], []. by rewrite app_nil_r.
  - intros [->|H].
    + exists [], ([sep] ++ join [sep] (l2 :: r)). by rewrite join_cons2.
    + destruct (IH H) as [a [b E]]. exists (l ++ [sep] ++ a), b.
      rewrite join_cons2, E. by rewrite <- !app_assoc.
Qed.

Lemma In_split_chr_infix sep p s :
  In p (split_chr sep s) -> exists a b, s = a ++ p ++ b.
Proof.
  intros H. apply (In_join_infix sep) in H. by rewrite join_split_chr in H.
Qed.

Lemma split_chr_head sep c r :
  c <> sep -> exists l ls, split_chr sep (c :: r) = (c :: l) :: ls.
Proof.
  intros H. simpl. destruct (N.eqb_spec c sep); [done|].
  destruct (split_chr sep r) as [|l ls]; eauto.
Qed.

Lemma result_lines_clean s :
  clean_result s ->
  result_lines s <> []
  /\ Forall clean_paragraph (result_lines s)
  /\ sublist (result_lines s) (split_chr LF s).
Proof.
  intros (Hne & Hs & Hb & Hm). unfold result_lines.
  set (keep := fun ln : list N =>
                 match strip ln with [] => false | _ => true end).
  assert (K : forall ln, keep ln = true -> blank ln = false).
  { intros ln. unfold keep. destruct (strip ln) eqn:E; [done|]. intros _.
    destruct (blank ln) eqn:B; [|done].
    apply strip_nil_blank in B. congruence. }
  split; [|split; [|apply sublist_list_filter]].
  - destruct s as [|c r]; [done|].
    assert (C : isspace c = false)
      by (apply (strip_no_leading_space (c :: r) c r); exact Hs).
    destruct (split_chr_head LF c r) as [l [ls E]].
    { intros ->. discriminate. }
    rewrite E. simpl.
    assert (Kc : keep (c :: l) = true).
    { unfold keep. destruct (strip (c :: l)) eqn:S; [|done].
      apply strip_nil_blank in S. simpl in S. by rewrite C in S. }
    by rewrite Kc.
  - apply List.Forall_forall. intros p Hp.
    apply List.filter_In in Hp as [Hp Hk].
    destruct (In_split_chr_infix LF p s Hp) as [a [b E]].
    split; [by apply K|]. split.
    + pose proof (split_chr_pieces LF s) as HF.
      rewrite List.Forall_forall in HF. specialize (HF p Hp).
      unfold nobreak. apply forallb_forall. intros c Hc.
      unfold only_lf_breaks in Hb. rewrite forallb_forall in Hb.
      assert (Hcs : In c s).
      { rewrite E. apply in_or_app. right. apply in_or_app. by left. }
      specialize (Hb c Hcs). apply orb_true_iff in Hb as [Hb|Hb]; [done|].
      apply N.eqb_eq in Hb. subst. done.
    + apply (has_marker_infix a p b). by rewrite <- E.
Qed.

Lemma add_result_Return doc s doc' :
  add_result doc (Some s) = Return doc' <->
  forallb xml_text (result_lines s) = true
  /\ doc' = doc ++ List.map Paragraph (result_lines s).
Proof.
  rewrite add_result_eq, add_blocks_Return, result_blocks_ok. done.
Qed.



(** ** Discovery does not depend on the order of the listing *)

Lemma str_ltb_antisym a b :
  str_ltb a b = false -> str_ltb b a = false -> a = b.
Proof.
  revert b. induction a as [|x a IH]; intros [|y b]; simpl; try done.
  destruct (N.ltb_spec x y), (N.ltb_spec y x); try done; try lia.
  intros H1 H2. assert (x = y) as -> by lia. f_equal. by apply IH.
Qed.

Lemma sorted_unique {A} (R : A -> A -> Prop) (l1 l2 : list A) :
  StronglySorted R l1 -> StronglySorted R l2 -> Permutation l1 l2 ->
  (forall a b, In a l1 -> In b l1 -> R a b -> R b a -> a = b) ->
  l1 = l2.
Proof.
  intros S1. revert l2.
  induction S1 as [|x l1 S1 IH F1]; intros l2 S2 HP Hanti.
  - apply Permutation_nil in HP. by subst.
  - destruct S2 as [|y l2 S2 F2].
    { apply Permutation_sym, Permutation_nil in HP. done. }
    assert (x = y) as ->.
    { assert (Hx : In x (y :: l2))
        by (apply (Permutation_in _ HP); by left).
      assert (Hy : In y (x :: l1))
        by (apply (Permutation_in _ (Permutation_sym HP)); by left).
      destruct Hx as [<-|Hx]; [done|]. destruct Hy as [<-|Hy]; [done|].
      rewrite List.Forall_forall in F1, F2.
      apply Hanti; [by left | by right | by apply F1 | by apply F2]. }
    f_equal. apply IH; [done | by apply Permutation_cons_inv in HP|].
    intros a b Ha Hb. apply Hanti; by right.
Qed.

Lemma Permutation_list_filter {A} (f : A -> bool) (l l' : list A) :
  Permutation l l' -> Permutation (List.filter f l) (List.filter f l').
Proof.
  induction 1 as [|x l l' _ IH|x y l|l l' l'' _ IH1 _ IH2]; simpl.
  - done.
  - destruct (f x); [by constructor | done].
  - destruct (f x), (f y); try done. apply perm_swap.
  - by etransitivity.
Qed.

Lemma NoDup_list_filter {A} (f : A -> bool) (l : list A) :
  NoDup l -> NoDup (List.filter f l).
Proof.
  induction 1 as [|x l Hx _ IH]; simpl; [constructor|].
  destruct (f x); [|done]. constructor; [|done].
  rewrite list_elem_of_In, List.filter_In, <- list_elem_of_In. tauto.
Qed.

Lemma get_python_files_names_NoDup w :
  NoDup (listdir w) -> NoDup (List.map name (get_python_files w)).
Proof.
  intros H. rewrite (get_python_files_names w). by apply NoDup_list_filter.
Qed.

(** X9: when the names of the directory are distinct, the discovered
    files have distinct names in strictly increasing order; and the
    name [Laba3_zvit.py] is never among them. *)
Theorem discovered_names_strictly_sorted w :
  ~ In (u "Laba3_zvit.py") (List.map name (get_python_files w))
  /\ (NoDup (listdir w) ->
      NoDup (List.map name (get_python_files w))
      /\ StronglySorted (fun a b => str_ltb a b = true)
           (List.map name (get_python_files w))).
Proof.
  split.
  - rewrite List.in_map_iff. intros [f [E H]].
    apply get_python_files_In in H as [_ H]. done.
  - intros HN. pose proof (get_python_files_names_NoDup w HN) as ND.
    split; [done|].
    pose proof (sorted_sorted name
                  (get_python_files_loop [] (glob_py w))) as HS.
    fold (get_python_files w) in HS.
    induction HS as [|f fs HS IH HF]; simpl in *; [constructor|].
    apply NoDup_cons in ND as [Hf ND].
    constructor; [by apply IH|].
    rewrite List.Forall_forall in HF. apply List.Forall_forall.
    intros n Hn. apply List.in_map_iff in Hn as [g [<- Hg]].
    destruct (str_ltb (name f) (name g)) eqn:E; [done|].
    exfalso. apply Hf. rewrite list_elem_of_In, List.in_map_iff.
    exists g. split; [|done]. symmetry.
    apply str_ltb_antisym; [done | by apply HF].
Qed.

Lemma discovered_names_strictly_sorted_witness :
  NoDup (List.map name (get_python_files world_three))
  /\ StronglySorted (fun a b => str_ltb a b = true)
       (List.map name (get_python_files world_three)).
Proof.
  apply (proj2 (discovered_names_strictly_sorted world_three)).
  vm_compute. repeat constructor; rewrite list_elem_of_In; simpl;
    intuition discriminate.
Defined.

(** X10: the discovered files do not depend on the order in which the
    system lists the directory: two listings of the same names give the
    same list of files. *)
Theorem discovery_independent_of_listing_order w w' :
  CURRENT_DIR w = CURRENT_DIR w' ->
  Permutation (listdir w) (listdir w') ->
  get_python_files w = get_python_files w'.
Proof.
  intros HD HP.
  apply (sorted_unique (fun f g => str_le (name f) (name g))).
  - apply sorted_sorted.
  - apply sorted_sorted.
  - rewrite (get_python_files_perm w), (get_python_files_perm w').
    apply Permutation_list_filter. unfold glob_py.
    replace (in_dir w') with (in_dir w) by (unfold in_dir; by rewrite HD).
    apply Permutation_map. by apply Permutation_list_filter.
  - intros a b Ha Hb H1 H2.
    apply (get_python_files_name_inj w); [done | done|].
    by apply str_ltb_antisym.
Qed.

Lemma discovery_independent_of_listing_order_witness :
  get_python_files world_three = get_python_files world_three_reversed.
Proof.
  apply discovery_independent_of_listing_order.
  - reflexivity.
  - apply Permutation_rev.
Defined.

(** ** The listing for any [max_lines] *)

(** X12: for every [max_lines >= 0] (the default 100 as well as the 80
    of the call), the calls of [add_formatted_code] are those that
    append only paragraphs: one for each of the first [max_lines] lines,
    and the notice exactly when lines are left out.  They are all
    written exactly when no line that is shown and is not white space
    only has a character that python-docx refuses; the lines that are
    left out are never looked at.  The lines shown and the number in the
    notice add up to the number of lines of the text, which is one more
    than its line feeds; with [max_lines=80] between 1 and 81 paragraphs
    are appended. *)
Theorem add_formatted_code_size code_text (n : nat) :
  let lines := split_chr LF code_text in
  let out := listing_blocks code_text n in
  (forall doc,
     add_formatted_code doc code_text (Z.of_nat n) = add_blocks doc out)
  /\ (forall doc doc',
        add_formatted_code doc code_text (Z.of_nat n) = Return doc' <->
        forallb (fun line => xml_text (code_line line)) (firstn n lines) = true
        /\ doc' = doc ++ out)
  /\ all_paragraphs out
  /\ length lines = S (count_occ N.eq_dec code_text LF)
  /\ length out =
     (Nat.min n (length lines) + if (n <? length lines)%nat then 1 else 0)%nat
  /\ ((n <? length lines)%nat = true ->
      exists shown,
        out = shown ++ [Paragraph (omitted_notice (Z.of_nat (length lines - n)))]
        /\ (length shown + (length lines - n) = length lines)%nat)
  /\ (n = 80%nat -> (1 <= length out <= 81)%nat).
Proof.
  intros lines out.
  assert (L : length lines = S (count_occ N.eq_dec code_text LF))
    by apply split_chr_length.
  assert (Len : length out
                = (Nat.min n (length lines)
                   + if (n <? length lines)%nat then 1 else 0)%nat).
  { unfold out, listing_blocks. cbv zeta. fold lines.
    rewrite length_app, length_map, length_firstn.
    by destruct (n <? length lines)%nat. }
  split; [intros doc; apply add_formatted_code_eq|].
  split.
  { intros doc doc'.
    rewrite add_formatted_code_eq, add_blocks_Return, listing_blocks_ok.
    done. }
  split; [apply listing_blocks_all_paragraphs|].
  split; [done|]. split; [done|]. split.
  - intros H. unfold out, listing_blocks. cbv zeta. fold lines. rewrite H.
    apply Nat.ltb_lt in H.
    exists (List.map code_paragraph (firstn n lines)). split.
    + by rewrite Nat2Z.inj_sub by lia.
    + rewrite length_map, length_firstn. lia.
  - intros ->. rewrite Len. destruct (Nat.ltb_spec 80 (length lines)); lia.
Qed.

Lemma add_formatted_code_size_witness :
  exists shown,
    listing_blocks (u "a\nb\nc") 2 =
    shown ++ [Paragraph (omitted_notice (Z.of_nat 1))]
    /\ (length shown + 1 = 3)%nat.
Proof.
  apply (proj1 (proj2 (proj2 (proj2 (proj2 (proj2
           (add_formatted_code_size (u "a\nb\nc") 2))))))).
  reflexivity.
Defined.

(** ** The table of contents, the sub-headings and the page breaks *)

Lemma toc_entries_sublist i py_files :
  sublist (toc_entries i py_files) (section_headings i py_files).
Proof.
  revert i. induction py_files as [|f r IH]; intros i; [constructor|].
  cbn [toc_entries section_headings].
  destruct (TASK_DESCRIPTIONS !! name f); by constructor.
Qed.

Lemma toc_entries_all_described i py_files :
  (forall f, In f py_files -> is_Some (TASK_DESCRIPTIONS !! name f)) ->
  toc_entries i py_files = section_headings i py_files.
Proof.
  revert i. induction py_files as [|f r IH]; intros i H; [done|].
  cbn [toc_entries section_headings].
  destruct (H f (or_introl eq_refl)) as [ti ->].
  f_equal. apply IH. intros g Hg. apply H. by right.
Qed.

Lemma bullets_report_blocks w py_files d :
  bullets (report_blocks w py_files d) = toc_entries 1 py_files.
Proof.
  unfold report_blocks. rewrite !bullets_app.
  rewrite (proj1 (front_part_counts w py_files)).
  rewrite (proj1 (sections_of_counts w d (length py_files) 1 py_files)).
  simpl. by rewrite app_nil_r.
Qed.

(** X13: the calls that build the report are those that append its
    blocks, and in a report that is assembled the table of contents has
    one entry for each file that [TASK_DESCRIPTIONS] describes, and none
    for the others; every entry is, word for word and number for number,
    the heading of the section of its file, and the entries come in the
    order of the sections.  When every file is described, the entries
    are exactly the headings of the sections. *)
Theorem toc_matches_sections w py_files d :
  assemble w py_files d = add_blocks [] (report_blocks w py_files d)
  /\ forall doc,
       assemble w py_files d = Return doc ->
       bullets doc = toc_entries 1 py_files
       /\ sublist (bullets doc) (section_headings 1 py_files)
       /\ sublist (bullets doc) (headings 1 doc)
       /\ ((forall f, In f py_files -> is_Some (TASK_DESCRIPTIONS !! name f)) ->
           bullets doc = section_headings 1 py_files).
Proof.
  split; [apply assemble_eq|].
  intros doc H. apply assemble_Return in H as [_ ->].
  rewrite bullets_report_blocks, headings_report_blocks.
  split; [done|]. split; [apply toc_entries_sublist|]. split.
  - apply sublist_inserts_l, sublist_inserts_r, toc_entries_sublist.
  - apply toc_entries_all_described.
Qed.

Lemma toc_matches_sections_witness :
  exists doc,
    assemble world_three [in_dir world_three (u "riven1zada4a1.py")] ∅
    = Return doc
    /\ bullets doc =
       [u "1. Завдання 1 (Рівень 1): Підрахунок унікальних символів"].
Proof.
  destruct (toc_matches_sections world_three
              [in_dir world_three (u "riven1zada4a1.py")] ∅)
    as (E & H).
  assert (R : exists doc,
            assemble world_three [in_dir world_three (u "riven1zada4a1.py")] ∅
            = Return doc).
  { apply assemble_returns_iff. split; [reflexivity|].
    intros f [<-|[]]. vm_compute. reflexivity. }
  destruct R as [doc R]. exists doc. split; [exact R|].
  destruct (H doc R) as (_ & _ & _ & B). rewrite B; [vm_compute; reflexivity|].
  intros f [<-|[]]. vm_compute. eauto.
Defined.

(** X14: in a report that is assembled every section has the same four
    sub-headings, in the same order (overview, source, result,
    conclusions), whatever the source and the result of the exercise;
    the other headings of level 2 are the three of the answers at the
    end. *)
Theorem section_subheadings_fixed w py_files d :
  assemble w py_files d = add_blocks [] (report_blocks w py_files d)
  /\ (forall i f,
        headings 2 (section_of w d (length py_files) i f)
        = section_subheadings)
  /\ forall doc,
       assemble w py_files d = Return doc ->
       headings 2 doc =
       flat_map (fun _ => section_subheadings) py_files
       ++ [u "4.1 Опис функцій у Python. Рекурсія.";
           u "4.2 Поняття зовнішніх модулів та їх методів.";
           u "4.3 Файли та методи роботи із ними."].
Proof.
  split; [apply assemble_eq|]. split; [intros; apply section_of_counts|].
  intros doc H. apply assemble_Return in H as [_ ->].
  unfold report_blocks. rewrite !headings_app.
  rewrite (proj2 (proj2 (proj2 (front_part_counts w py_files)))).
  rewrite (proj2 (proj2 (proj2 (sections_of_counts w d (length py_files) 1
                                  py_files)))).
  by rewrite (proj2 (proj2 (proj2 closing_blocks_counts))).
Qed.

Lemma section_subheadings_fixed_witness :
  exists doc,
    assemble world_three (get_python_files world_three)
      (task_results_of world_three (get_python_files world_three) ∅)
    = Return doc
    /\ headings 2 doc =
       section_subheadings ++ section_subheadings ++ section_subheadings
       ++ [u "4.1 Опис функцій у Python. Рекурсія.";
           u "4.2 Поняття зовнішніх модулів та їх методів.";
           u "4.3 Файли та методи роботи із ними."].
Proof.
  destruct (section_subheadings_fixed world_three
              (get_python_files world_three)
              (task_results_of world_three (get_python_files world_three) ∅))
    as (E & _ & H).
  assert (R : exists doc,
            assemble world_three (get_python_files world_three)
              (task_results_of world_three (get_python_files world_three) ∅)
            = Return doc).
  { apply assemble_returns_iff. split; [reflexivity|].
    intros f Hf. vm_compute in Hf.
    destruct Hf as [<-|[<-|[<-|[]]]]; vm_compute; reflexivity. }
  destruct R as [doc R]. exists doc. split; [exact R|].
  exact (H doc R).
Defined.

(** X15: in a report that is assembled a page break follows every
    section but the last one: a report of [N] sections has [N - 1] page
    breaks between them, besides the three of the front part and the one
    before the conclusions (four in all when no file is discovered). *)
Theorem report_page_breaks w py_files d :
  assemble w py_files d = add_blocks [] (report_blocks w py_files d)
  /\ (forall i f,
        page_breaks (section_of w d (length py_files) i f)
        = (if (i <? length py_files)%nat then 1 else 0)%nat)
  /\ forall doc,
       assemble w py_files d = Return doc ->
       page_breaks doc = (4 + (length py_files - 1))%nat.
Proof.
  split; [apply assemble_eq|]. split; [intros; apply section_of_counts|].
  intros doc H. apply assemble_Return in H as [_ ->].
  unfold report_blocks. rewrite !page_breaks_app.
  rewrite (proj1 (proj2 (front_part_counts w py_files))).
  rewrite (proj1 (proj2 (sections_of_counts w d (length py_files) 1
                           py_files))).
  rewrite (proj1 (proj2 closing_blocks_counts)). lia.
Qed.

Lemma report_page_breaks_witness :
  exists doc,
    assemble world_three (get_python_files world_three)
      (task_results_of world_three (get_python_files world_three) ∅)
    = Return doc
    /\ page_breaks doc = 6%nat.
Proof.
  destruct (report_page_breaks world_three
              (get_python_files world_three)
              (task_results_of world_three (get_python_files world_three) ∅))
    as (E & _ & H).
  assert (R : exists doc,
            assemble world_three (get_python_files world_three)
              (task_results_of world_three (get_python_files world_three) ∅)
            = Return doc).
  { apply assemble_returns_iff. split; [reflexivity|].
    intros f Hf. vm_compute in Hf.
    destruct Hf as [<-|[<-|[<-|[]]]]; vm_compute; reflexivity. }
  destruct R as [doc R]. exists doc. split; [exact R|].
  exact (H doc R).
Defined.

(** ** What [create_report] returns or raises *)

Lemma forallb_false_exists {A} (p : A -> bool) (l : list A) :
  forallb p l = false -> exists x, In x l /\ p x = false.
Proof.
  induction l as [|x l IH]; simpl; [done|].
  destruct (p x) eqn:E.
  - intros H. destruct (IH H) as [y [Hy Py]]. exists y. split; [by right|done].
  - intros _. exists x. split; [by left | done].
Qed.



(** ** The messages of the loop of the runs *)

Lemma run_exercises_eq w py_files d console :
  run_exercises w py_files d console =
  Return (task_results_of w py_files d,
          console ++ List.map (status_line w) py_files).
Proof.
  revert d console.
  induction py_files as [|f r IH]; intros d console.
  - cbn [run_exercises task_results_of fold_left List.map].
    by rewrite app_nil_r.
  - cbn [run_exercises]. rewrite capture_output_eq.
    unfold task_results_of. cbn [fold_left List.map].
    fold (task_results_of w r). unfold recorded, status_line, outcome.
    cbn [mbind result_bind].
    destruct (subprocess_run _ _ _ _) as [cp|e].
    + destruct (returncode cp =? 0)%Z; rewrite IH, <- app_assoc; done.
    + rewrite IH, <- app_assoc. done.
Qed.

Lemma ok_line_not_no_result_line f g : ok_line f <> no_result_line g.
Proof.
  unfold ok_line, no_result_line.
  change (u "✓ ") with [10003; 32]. change (u "⊘ ") with [8856; 32].
  discriminate.
Qed.



(** ** The configuration tables *)

(** X18: the tables of the script agree with each other: a name has
    a title and a description exactly when it has a conclusion of its
    own, so the generic conclusion goes with the sections headed by a
    file name; every name with an input fixture or with arguments is a
    described one; and no name has both an input fixture and
    arguments. *)
Theorem tables_consistent w :
  dom TASK_DESCRIPTIONS = dom conclusions
  /\ dom (TEST_INPUTS w) ∪ dom (TEST_ARGS w) ⊆ dom TASK_DESCRIPTIONS
  /\ dom (TEST_INPUTS w) ∩ dom (TEST_ARGS w) = ∅
  /\ (forall n, TASK_DESCRIPTIONS !! n = None ->
        get_task_conclusions n = u "Завдання виконано успішно."
        /\ TEST_INPUTS w !! n = None /\ TEST_ARGS w !! n = None).
Proof.
  assert (D : dom TASK_DESCRIPTIONS = dom conclusions)
    by (vm_compute; reflexivity).
  assert (S : dom (TEST_INPUTS w) ∪ dom (TEST_ARGS w) ⊆ dom TASK_DESCRIPTIONS).
  { unfold TEST_INPUTS, TEST_ARGS. rewrite !dom_list_to_map_L. simpl.
    apply (bool_decide_unpack _). by vm_compute. }
  split; [done|]. split; [done|]. split.
  - unfold TEST_INPUTS, TEST_ARGS. rewrite !dom_list_to_map_L. simpl.
    apply (bool_decide_unpack _). by vm_compute.
  - intros n Hn.
    assert (Hd : n ∉ dom TASK_DESCRIPTIONS) by by apply not_elem_of_dom.
    split; [|split].
    + unfold get_task_conclusions. rewrite D in Hd.
      apply not_elem_of_dom in Hd. by rewrite Hd.
    + apply not_elem_of_dom. intros Hin. apply Hd, S, elem_of_union.
      by left.
    + apply not_elem_of_dom. intros Hin. apply Hd, S, elem_of_union.
      by right.
Qed.

(** ** [splitlines] *)

(** X19: the lines of [text.splitlines()] have no line-break character;
    there is no line exactly when the text is empty; the lines never hold
    more characters than the text; and [splitlines] gives back the lines
    of a [join] with line feeds when no line has a line-break character
    and the last line is not empty. *)
Theorem splitlines_lines t :
  Forall (fun l => nobreak l = true) (splitlines t)
  /\ (splitlines t = [] <-> t = [])
  /\ (length (join [LF] (splitlines t)) <= length t)%nat
  /\ (forall ls,
        Forall (fun l => nobreak l = true) ls ->
        last_sat (fun l => l <> []) ls ->
        splitlines (join [LF] ls) = ls).
Proof.
  split; [apply splitlines_nobreak|]. split; [|split].
  - split; [apply splitlines_nil | by intros ->].
  - rewrite length_join.
    pose proof (lines_size_splitlines_upto (length t) t (le_n _)). lia.
  - intros ls. apply splitlines_join.
Qed.

Lemma splitlines_lines_witness :
  splitlines (join [LF] [u "a"; []; u "b"]) = [u "a"; []; u "b"].
Proof.
  apply (proj2 (proj2 (proj2 (splitlines_lines [])))).
  - repeat constructor.
  - simpl. discriminate.
Defined.

(** ** An exercise with a clean output *)

Lemma forallb_trimmed (P : N -> bool) l k :
  trimmed_of l k -> forallb P k = true -> forallb P l = true.
Proof.
  intros (a & b & -> & _). rewrite !forallb_app, !andb_true_iff. tauto.
Qed.


